(** * sdf: the [trace] sub-command ([traceCmd] of main.go)

    A shallow embedding of the file-access tracer of [sdf]: the Go
    function [traceCmd] launches a program under strace, reads the
    diagnostic stream line by line, takes the first double-quoted token of
    each line, and prints it without the [$HOME] prefix.

    Go strings are byte strings: they are modelled by [string] (a list of
    [ascii], one per byte), [len] by [String.length].  The operating
    system (search path, child process, its standard error) is a record of
    oracles; the effects of [traceCmd] are threaded through a small state
    and error monad, and every externally visible action is recorded in an
    event log.

    The rest of main.go follows in [Cli]: the commands that hand over to
    git, the confirmation prompt, the two initialisations and [main], over
    a log of actions that adds commands run and file-system calls to the
    events of the tracer. *)

From Stdlib Require Import String Ascii List Arith Bool Lia.
Import ListNotations.
Local Open Scope list_scope.
Local Open Scope string_scope.

(** ** Bytes and strings of the Go runtime *)

Module GoString.

(** The double-quote byte (34), the separator given to [strings.Split]
    (main.go:139). *)
Definition dquote : ascii := "034"%char.

(** The line-feed byte (10), the delimiter given to [ReadString]
    (main.go:135). *)
Definition newline : ascii := "010"%char.

(** The path separator written after [$HOME]. *)
Definition slash : ascii := "/"%char.

(** [len(s)]. *)
Definition len (s : string) : nat := String.length s.

(** [strings.HasPrefix(s, prefix)]:
    [len(s) >= len(prefix) && s[:len(prefix)] == prefix]. *)
Fixpoint HasPrefix (s prefix : string) {struct prefix} : bool :=
  match prefix, s with
  | EmptyString, _ => true
  | String _ _, EmptyString => false
  | String p prefix', String c s' =>
      if Ascii.eqb c p then HasPrefix s' prefix' else false
  end.

(** [strings.Split(s, sep)] for a separator of one byte, the only way the
    program calls it: the fragments of [s] between the occurrences of
    [sep]; one more fragment than there are occurrences, so the
    empty string splits into one empty fragment. *)
Fixpoint Split (s : string) (sep : ascii) : list string :=
  match s with
  | EmptyString => [EmptyString]
  | String c s' =>
      if Ascii.eqb c sep then EmptyString :: Split s' sep
      else match Split s' sep with
           | [] => [String c EmptyString]
           | t :: ts => String c t :: ts
           end
  end.

(** [unicode.IsSpace] on the ASCII range. *)
Definition isSpace (c : ascii) : bool :=
  let n := nat_of_ascii c in
  ((9 <=? n)%nat && (n <=? 13)%nat) || (n =? 32)%nat.

(** [strings.Fields(s)] on ASCII input: the maximal runs of bytes that
    are not white space.  [cur] is the field being read, if any. *)
Fixpoint FieldsFrom (cur : option string) (s : string) : list string :=
  match s with
  | EmptyString =>
      match cur with Some f => [f] | None => [] end
  | String c s' =>
      if isSpace c then
        match cur with
        | Some f => f :: FieldsFrom None s'
        | None => FieldsFrom None s'
        end
      else
        match cur with
        | Some f => FieldsFrom (Some (f ++ String c EmptyString)) s'
        | None => FieldsFrom (Some (String c EmptyString)) s'
        end
  end.

Definition Fields (s : string) : list string := FieldsFrom None s.

(** [bufio.Reader.ReadString(delim)] on a reader whose unread content is
    [buf], the writer's end being closed after it: the bytes up to and
    including the first [delim], what is left unread, and [false] for a
    nil error; when the content ends before a [delim] is found, the bytes
    read so far and [true] for [io.EOF]. *)
Fixpoint ReadString (buf : string) (delim : ascii)
  : string * string * bool :=
  match buf with
  | EmptyString => (EmptyString, EmptyString, true)
  | String c buf' =>
      if Ascii.eqb c delim then (String c EmptyString, buf', false)
      else let '(line, rest, eof) := ReadString buf' delim in
           (String c line, rest, eof)
  end.

End GoString.
Import GoString.

(** ** Outcomes: normal return, run-time panic, exhausted fuel *)

Inductive Outcome (A : Type) : Type :=
| Done (a : A)
| Panic (msg : string)
| OutOfFuel.

Arguments Done {A} a.
Arguments Panic {A} msg.
Arguments OutOfFuel {A}.

Definition bindO {A B} (o : Outcome A) (k : A -> Outcome B) : Outcome B :=
  match o with
  | Done a => k a
  | Panic msg => Panic msg
  | OutOfFuel => OutOfFuel
  end.

(** [l[i]]: an index out of range panics. *)
Definition index (l : list string) (i : nat) : Outcome string :=
  match nth_error l i with
  | Some x => Done x
  | None => Panic "index out of range"
  end.

(** [s[n:]]: a bound beyond [len(s)] panics. *)
Fixpoint sliceFrom (s : string) (n : nat) : Outcome string :=
  match n, s with
  | 0, _ => Done s
  | S _, EmptyString => Panic "slice bounds out of range"
  | S n', String _ s' => sliceFrom s' n'
  end.

(** ** The two pure steps of the loop body *)

(** The trace event parser, main.go:139-140: split the line on the
    double-quote byte and,
    when there are more than two fragments, take fragment 1. *)
Definition parseLine (line : string) : Outcome (option string) :=
  let temp := Split line dquote in
  if (2 <? length temp)%nat then
    bindO (index temp 1) (fun path => Done (Some path))
  else Done None.

(** The path normalizer, main.go:141-145, on the parsed path [temp[1]]:
    nothing unless the path has [userPath] as a prefix, nothing when its
    length is [uplen], otherwise the path from byte [uplen+1] on. *)
Definition normalize (path userPath : string) : Outcome (option string) :=
  let uplen := len userPath in
  if HasPrefix path userPath then
    if (len path =? uplen)%nat then Done None
    else bindO (sliceFrom path (uplen + 1)) (fun rel => Done (Some rel))
  else Done None.

(** ** The operating system and the effects of [traceCmd] *)

(** What the program asks of its environment: [exec.LookPath], whether
    [StderrPipe] fails, and, for the argument vector of a started child,
    the bytes the child writes to its standard error before closing it and
    its exit status. *)
Record OS : Type := mkOS {
  onPath : string -> bool;
  pipeFails : bool;
  childStderr : list string -> string;
  childStatus : list string -> nat
}.

(** The externally visible actions, in the order they happen. *)
Inductive Event : Type :=
| EvLookPath (file : string)
| EvPrintln (s : string)
| EvStart (argv : list string)
| EvWait.

(** The state threaded through [traceCmd]: the actions so far, the unread
    content of the standard-error pipe, and the exit status of a child
    that was started and not reaped yet. *)
Record World : Type := mkWorld {
  events : list Event;
  pipe : string;
  child : option nat
}.

Definition initial : World := mkWorld [] EmptyString None.

Definition M (A : Type) : Type := World -> Outcome A * World.

Definition ret {A} (a : A) : M A := fun w => (Done a, w).

Definition bind {A B} (m : M A) (k : A -> M B) : M B :=
  fun w =>
    match m w with
    | (Done a, w') => k a w'
    | (Panic msg, w') => (Panic msg, w')
    | (OutOfFuel, w') => (OutOfFuel, w')
    end.

Definition lift {A} (o : Outcome A) : M A := fun w => (o, w).

Declare Scope go_scope.
Delimit Scope go_scope with go.
Notation "x <- m ;; k" := (bind m (fun x => k))
  (at level 61, m at next level, right associativity) : go_scope.
Notation "m ;; k" := (bind m (fun _ => k))
  (at level 61, right associativity) : go_scope.
Local Open Scope go_scope.

Definition log (e : Event) : M unit :=
  fun w => (Done tt, mkWorld (events w ++ [e])%list (pipe w) (child w)).

(** [exec.LookPath(file)]; [true] stands for a nil error. *)
Definition LookPath (os : OS) (file : string) : M bool :=
  log (EvLookPath file) ;; ret (onPath os file).

(** [fmt.Println(s)]. *)
Definition Println (s : string) : M unit := log (EvPrintln s).

(** [cmd.StderrPipe()] followed by [if err != nil { panic(err) }]. *)
Definition StderrPipe (os : OS) : M unit :=
  if pipeFails os then lift (Panic "StderrPipe") else ret tt.

(** [cmd.Start()] when it succeeds: the child runs with [argv]; what it
    writes to standard error becomes the content of the pipe.  The program
    drops the error of [Start]; the run in which it fails is in
    [Cli.traceCmdOn]. *)
Definition Start (os : OS) (argv : list string) : M unit :=
  fun w => (Done tt,
            mkWorld (events w ++ [EvStart argv])%list
                    (childStderr os argv)
                    (Some (childStatus os argv))).

(** [scanner.ReadString] with the line-feed delimiter, on the pipe of a
    child that closes its standard error after what it wrote; the other
    reads are in [Cli.readLineOn]. *)
Definition readLine : M (string * bool) :=
  fun w =>
    let '(line, rest, eof) := ReadString (pipe w) newline in
    (Done (line, eof), mkWorld (events w) rest (child w)).

(** [cmd.Wait()]: reaps the child and returns its exit status. *)
Definition Wait : M (option nat) :=
  fun w => (Done (child w), mkWorld (events w ++ [EvWait])%list (pipe w) None).

(** ** [traceCmd], main.go:112-150 *)

(** The body of the [for] loop after the end-of-stream test,
    main.go:139-147. *)
Definition lineBody (userPath : string) (line : string) : M unit :=
  found <- lift (parseLine line) ;;
  match found with
  | Some path =>
      rel <- lift (normalize path userPath) ;;
      match rel with
      | Some r => Println r
      | None => ret tt
      end
  | None => ret tt
  end.

(** The [for] loop, main.go:134-148; each iteration takes one unit of
    fuel. *)
Fixpoint readLoop (fuel : nat) (userPath : string) : M unit :=
  match fuel with
  | 0 => lift OutOfFuel
  | S fuel' =>
      r <- readLine ;;
      let '(line, eof) := r in
      if eof then ret tt
      else lineBody userPath line ;; readLoop fuel' userPath
  end.

(** The loop with one unit of fuel per unread byte and one for the
    end-of-stream read: every iteration but the last consumes a byte. *)
Definition drain (userPath : string) : M unit :=
  fun w => readLoop (S (len (pipe w))) userPath w.

Definition msgNoStrace : string :=
  "Strace not found. Check your $PATH or install it.".

Definition msgNoBinary : string :=
  "Binary not executable or doesn't exist. Cannot continue.".

(** [userPath] is the package variable read from the environment variable
    HOME.  This is [traceCmd] on the runs in which the child, if started,
    closes its standard error; [Cli.traceCmdOn] has every run. *)
Definition traceCmd (os : OS) (userPath : string) (inCmd : list string)
  : M unit :=
  found <- LookPath os "strace" ;;
  if negb found then Println msgNoStrace
  else
    prog <- lift (index inCmd 0) ;;
    found <- LookPath os prog ;;
    if negb found then Println msgNoBinary
    else
      let straceArgs := Fields "-f -e trace=openat" in
      let fullArgs := (straceArgs ++ inCmd)%list in
      let argv := (["strace"] ++ fullArgs)%list in
      StderrPipe os ;;
      Start os argv ;;
      drain userPath ;;
      _ <- Wait ;;
      ret tt.

(** The lines written to standard output, one per [fmt.Println]. *)
Fixpoint stdout (evs : list Event) : list string :=
  match evs with
  | [] => []
  | EvPrintln s :: evs' => s :: stdout evs'
  | _ :: evs' => stdout evs'
  end.

(** The argument vectors of the processes started. *)
Fixpoint spawned (evs : list Event) : list (list string) :=
  match evs with
  | [] => []
  | EvStart argv :: evs' => argv :: spawned evs'
  | _ :: evs' => spawned evs'
  end.

(** ** Vocabulary of the statements *)

(** [true] when the byte [c] occurs in [s]. *)
Fixpoint hasByte (c : ascii) (s : string) : bool :=
  match s with
  | EmptyString => false
  | String x s' => Ascii.eqb x c || hasByte c s'
  end.

(** The number of occurrences of the byte [c] in [s]. *)
Fixpoint countByte (c : ascii) (s : string) : nat :=
  match s with
  | EmptyString => 0
  | String x s' => (if Ascii.eqb x c then 1 else 0) + countByte c s'
  end.

(** [s] is free of the byte [c]. *)
Definition free (c : ascii) (s : string) : Prop := hasByte c s = false.

(** A one-byte string. *)
Definition byte (c : ascii) : string := String c EmptyString.

(** The stream made of the lines [ls], each closed by a line feed. *)
Fixpoint joinLines (ls : list string) : string :=
  match ls with
  | [] => EmptyString
  | l :: ls' => l ++ byte newline ++ joinLines ls'
  end.



(** What one iteration of the loop prints for [line], read off a run of
    [lineBody] in a world without events. *)
Definition emitted (userPath line : string) : list string :=
  stdout (events (snd (lineBody userPath line initial))).

(** What the loop prints when the child writes [stream] to its standard
    error, read off a run of [drain]. *)
Definition traceOutput (userPath stream : string) : list string :=
  stdout (events (snd (drain userPath (mkWorld [] stream None)))).

(** What the loop body prints for the lines [ls], each read with its line
    feed, one after the other. *)
Definition perLine (userPath : string) (ls : list string) : list string :=
  flat_map (fun l => emitted userPath (l ++ byte newline)) ls.

(** The world after printing [outs]. *)
Definition printed (outs : list string) (w : World) : World :=
  mkWorld (events w ++ map EvPrintln outs)%list (pipe w) (child w).

(** The argument vector [traceCmd] gives to the child. *)
Definition straceArgv (inCmd : list string) : list string :=
  ("strace" :: "-f" :: "-e" :: "trace=openat" :: inCmd)%list.

(** ** Test data *)

Module Sample.

Definition q : string := String dquote EmptyString.
Definition nl : string := String newline EmptyString.

(** A line of strace output for an [openat] of [path]. *)
Definition openat (path : string) : string :=
  "openat(AT_FDCWD, " ++ q ++ path ++ q ++ ", O_RDONLY) = 3".

Definition alice : string := "/home/alice".

(** An operating system where [strace] and [/bin/cat] resolve and the
    traced child writes [err] to its standard error. *)
Definition linux (err : string) (status : nat) : OS :=
  mkOS (fun f => String.eqb f "strace" || String.eqb f "/bin/cat")
       false (fun _ => err) (fun _ => status).

(** A line that is not an [openat] entry but carries a quoted path. *)
Definition annotation (path : string) : string :=
  "+++ killed by SIGSEGV, core in " ++ q ++ path ++ q ++ " +++".

Definition scenarioB : string :=
  openat "/home/alice/.bashrc" ++ nl ++
  openat "/etc/passwd" ++ nl ++
  openat "/home/alice/.bashrc" ++ nl.

End Sample.

(** ** The rest of the program: version-control commands and [main] *)

Module Cli.

(** *** More of the Go string library, on ASCII input *)

(** All bytes are below 128. *)
Fixpoint isASCII (s : string) : bool :=
  match s with
  | EmptyString => true
  | String c s' => (nat_of_ascii c <? 128)%nat && isASCII s'
  end.

(** Some byte is white space. *)
Fixpoint hasSpace (s : string) : bool :=
  match s with
  | EmptyString => false
  | String c s' => isSpace c || hasSpace s'
  end.

(** All bytes are white space. *)
Fixpoint allSpace (s : string) : bool :=
  match s with
  | EmptyString => true
  | String c s' => isSpace c && allSpace s'
  end.

(** [unicode.ToLower] on a byte of the ASCII range. *)
Definition lowerByte (c : ascii) : ascii :=
  let n := nat_of_ascii c in
  if ((65 <=? n) && (n <=? 90))%nat then ascii_of_nat (n + 32) else c.

(** [strings.ToLower(s)] on ASCII input. *)
Fixpoint ToLower (s : string) : string :=
  match s with
  | EmptyString => EmptyString
  | String c s' => String (lowerByte c) (ToLower s')
  end.

Fixpoint trimLeft (s : string) : string :=
  match s with
  | EmptyString => EmptyString
  | String c s' => if isSpace c then trimLeft s' else s
  end.

Fixpoint trimRight (s : string) : string :=
  match s with
  | EmptyString => EmptyString
  | String c s' =>
      match trimRight s' with
      | EmptyString => if isSpace c then EmptyString else String c EmptyString
      | t => String c t
      end
  end.

(** [strings.TrimSpace(s)] on ASCII input: [s] without its leading and
    trailing white space. *)
Definition TrimSpace (s : string) : string := trimRight (trimLeft s).

(** [l[n:]] on a slice of strings: a bound beyond [len(l)] panics. *)
Definition sliceArgs (l : list string) (n : nat) : Outcome (list string) :=
  if (n <=? length l)%nat then Done (skipn n l)
  else Panic "slice bounds out of range".

(** *** Package variables, main.go:12-15 *)

Definition sdfPath (userPath : string) : string := userPath ++ "/.config/sdf".

Definition baseGit (userPath : string) : string :=
  "git --git-dir=" ++ sdfPath userPath ++ " --work-tree=" ++ userPath.

(** *** [traceCmd] over every way the launch can go *)

(** [traceCmd] above is the run in which [straceCmd.Start()] succeeds and
    the child closes its standard error.  The program drops the error of
    [Start] (main.go:132) and breaks its loop on [io.EOF] only
    (main.go:136), so two more runs exist: [Start] fails, after which the
    read end of the pipe is closed and every read returns at once with an
    error that is not [io.EOF]; or the child starts and keeps its standard
    error open, so that a read past what it wrote blocks for ever. *)
Inductive Launch : Type :=
| Starts (closes : bool)
| StartFails.

(** The error of [ReadString]: nil, [io.EOF], or the error of a read on a
    closed file. *)
Inductive ReadErr : Type :=
| ErrNil
| ErrEOF
| ErrClosed.

(** [scanner.ReadString] with the line-feed delimiter on the pipe, for any
    launch; [None] is a read that blocks for ever. *)
Definition readLineOn (launch : Launch)
  : World -> option (string * ReadErr) * World :=
  fun w =>
    match launch with
    | StartFails => (Some (EmptyString, ErrClosed), w)
    | Starts closes =>
        let '(line, rest, eof) := ReadString (pipe w) newline in
        if eof then
          if closes
          then (Some (line, ErrEOF), mkWorld (events w) rest (child w))
          else (None, w)
        else (Some (line, ErrNil), mkWorld (events w) rest (child w))
    end.

(** The [for] loop, main.go:134-148, for any launch; each iteration takes
    one unit of fuel, and a read that blocks takes all of it. *)
Fixpoint readLoopOn (fuel : nat) (launch : Launch) (userPath : string)
  : M unit :=
  match fuel with
  | 0 => lift OutOfFuel
  | S fuel' =>
      fun w =>
        match readLineOn launch w with
        | (None, w') => (OutOfFuel, w')
        | (Some (line, ErrEOF), w') => (Done tt, w')
        | (Some (line, _), w') =>
            (lineBody userPath line ;; readLoopOn fuel' launch userPath) w'
        end
  end.

(** The loop with the fuel of [drain]; it is enough whenever the loop ends
    at all. *)
Definition drainOn (launch : Launch) (userPath : string) : M unit :=
  fun w => readLoopOn (S (len (pipe w))) launch userPath w.

(** [cmd.Start()], whose error is dropped: a failed start runs no child
    and leaves nothing to read or to reap. *)
Definition StartOn (os : OS) (launch : Launch) (argv : list string)
  : M unit :=
  match launch with
  | Starts _ => Start os argv
  | StartFails => ret tt
  end.

(** [traceCmd], main.go:112-150, for any launch.  [OutOfFuel] is the run
    that does not return. *)
Definition traceCmdOn (os : OS) (launch : Launch) (userPath : string)
           (inCmd : list string) : M unit :=
  found <- LookPath os "strace" ;;
  if negb found then Println msgNoStrace
  else
    prog <- lift (index inCmd 0) ;;
    found <- LookPath os prog ;;
    if negb found then Println msgNoBinary
    else
      let straceArgs := Fields "-f -e trace=openat" in
      let fullArgs := (straceArgs ++ inCmd)%list in
      let argv := (["strace"] ++ fullArgs)%list in
      StderrPipe os ;;
      StartOn os launch argv ;;
      drainOn launch userPath ;;
      _ <- Wait ;;
      ret tt.

(** *** Effects *)

(** What the commands do to the outside, in order: the actions of
    [traceCmd] and [fmt.Println], the bytes written by [fmt.Printf], a
    command run to completion (with or without its output wired to the
    terminal), and the file-system calls.  Permissions are numbers: 0600 is
    384 and 0700 is 448. *)
Inductive Act : Type :=
| Ev (e : Event)
| Printf (s : string)
| Run (withOutput : bool) (argv : list string)
| RemoveAll (path : string)
| MkdirAll (path : string) (perm : nat)
| Rename (oldpath newpath : string)
| Chmod (path : string) (perm : nat).

(** The environment: the operating system of [traceCmd] and how the launch
    of strace goes, whether [os.IsNotExist] holds of the error of
    [os.Stat(path)], and whether a file-system call returns an error. *)
Record Host : Type := mkHost {
  hostOS : OS;
  launch : Launch;
  notExist : string -> bool;
  fails : Act -> bool
}.

(** The state: the actions so far and the unread bytes of standard
    input. *)
Record Sys : Type := mkSys {
  acts : list Act;
  stdin : string
}.

Definition IO (A : Type) : Type := Sys -> Outcome A * Sys.

Definition retIO {A} (a : A) : IO A := fun s => (Done a, s).

Definition bindIO {A B} (m : IO A) (k : A -> IO B) : IO B :=
  fun s =>
    match m s with
    | (Done a, s') => k a s'
    | (Panic msg, s') => (Panic msg, s')
    | (OutOfFuel, s') => (OutOfFuel, s')
    end.

Definition liftIO {A} (o : Outcome A) : IO A := fun s => (o, s).

Declare Scope io_scope.
Delimit Scope io_scope with io.
Notation "x <- m ;; k" := (bindIO m (fun x => k))
  (at level 61, m at next level, right associativity) : io_scope.
Notation "m ;; k" := (bindIO m (fun _ => k))
  (at level 61, right associativity) : io_scope.
Local Open Scope io_scope.

Definition emit (a : Act) : IO unit :=
  fun s => (Done tt, mkSys (acts s ++ [a])%list (stdin s)).

(** [fmt.Println(s)]. *)
Definition say (s : string) : IO unit := emit (Ev (EvPrintln s)).

(** [os.Stat(path)] followed by [os.IsNotExist(err)]. *)
Definition statNotExist (h : Host) (path : string) : IO bool :=
  retIO (notExist h path).

(** [check(call)], main.go:240-244: the call is made, and its error
    panics. *)
Definition check (h : Host) (call : Act) : IO unit :=
  emit call ;;
  if fails h call then liftIO (Panic "check") else retIO tt.

(** [reader.ReadString] with the line-feed delimiter, on standard input. *)
Definition readStdin : IO (string * bool) :=
  fun s =>
    let '(line, rest, eof) := ReadString (stdin s) newline in
    (Done (line, eof), mkSys (acts s) rest).

(** A run of [traceCmd], its actions appended to the log. *)
Definition runTrace (m : M unit) : IO unit :=
  fun s =>
    let '(o, w) := m initial in
    (o, mkSys (acts s ++ map Ev (events w))%list (stdin s)).

(** [exec.Command(cmdStr[0], cmdStr[1:]...)] followed by [Run()], whose
    error is dropped; [withOutput] tells whether the standard output and
    error of the command are those of the program. *)
Definition runCommand (withOutput : bool) (cmdStr : list string) : IO unit :=
  name <- liftIO (index cmdStr 0) ;;
  args <- liftIO (sliceArgs cmdStr 1) ;;
  emit (Run withOutput (name :: args)).

(** [runWithOutput], main.go:231-238. *)
Definition runWithOutput (cmdStr : list string) : IO unit :=
  runCommand true cmdStr.

(** *** The version-control commands *)

(** [addToVCS], main.go:19-22. *)
Definition addToVCS (userPath : string) (paths : list string) : IO unit :=
  let fullCmd := (Fields (baseGit userPath ++ " add") ++ paths)%list in
  runWithOutput fullCmd.

(** [delegateCmdToVCS], main.go:26-29. *)
Definition delegateCmdToVCS (userPath : string) (cmd : list string)
  : IO unit :=
  let fullCmd := (Fields (baseGit userPath) ++ cmd)%list in
  runWithOutput fullCmd.

(** [status], main.go:97-100. *)
Definition status (userPath : string) : IO unit :=
  let cmd := (Fields (baseGit userPath) ++ ["status"])%list in
  runWithOutput cmd.

(** [rmFromVCS], main.go:104-107. *)
Definition rmFromVCS (userPath : string) (paths : list string) : IO unit :=
  let fullCmd := (Fields (baseGit userPath ++ " rm") ++ paths)%list in
  runWithOutput fullCmd.

(** *** [askForConfirmation], main.go:210-229 *)

(** The test of the response, main.go:221-227: [Some true] for a
    confirmation, [Some false] for a refusal, [None] to ask again. *)
Definition parseAnswer (response : string) : option bool :=
  let response := ToLower (TrimSpace response) in
  if (response =? "y") || (response =? "yes") then Some true
  else if (response =? "n") || (response =? "no") then Some false
  else None.

(** The [for] loop; each iteration takes one unit of fuel. *)
Fixpoint askLoop (fuel : nat) (s : string) : IO bool :=
  match fuel with
  | 0 => liftIO OutOfFuel
  | S fuel' =>
      emit (Printf (s ++ " [y/n]: ")) ;;
      r <- readStdin ;;
      let '(response, err) := r in
      if err then liftIO (Panic "EOF")
      else
        match parseAnswer response with
        | Some answer => retIO answer
        | None => askLoop fuel' s
        end
  end.

(** One unit of fuel per unread byte and one more: every iteration that
    does not panic consumes a byte. *)
Definition askForConfirmation (s : string) : IO bool :=
  fun sys => askLoop (S (len (stdin sys))) s sys.

(** *** [initFromVCS] and [initNew] *)

Definition msgInitialized : string := "SDF is already initialized!".
Definition msgForce : string := "Force remove previous configuration?".

(** The common opening, main.go:34-40 and 67-73: [true] to go on, [false]
    for the early return. *)
Definition clearPrevious (h : Host) (userPath : string) : IO bool :=
  missing <- statNotExist h (sdfPath userPath) ;;
  if negb missing then
    say msgInitialized ;;
    ok <- askForConfirmation msgForce ;;
    if negb ok then retIO false
    else check h (RemoveAll (sdfPath userPath)) ;; retIO true
  else retIO true.

(** [initFromVCS], main.go:33-62. *)
Definition initFromVCS (h : Host) (userPath url : string) : IO unit :=
  go <- clearPrevious h userPath ;;
  if negb go then retIO tt
  else
    check h (MkdirAll (userPath ++ "/.config") 384) ;;
    let tempDir := userPath ++ "/.config/sdf-tmp" in
    runWithOutput
      ["git"; "clone"; "--separate-git-dir=" ++ sdfPath userPath; url;
       tempDir] ;;
    let modules := tempDir ++ "/.gitmodules" in
    missing <- statNotExist h modules ;;
    (if negb missing
     then check h (Rename modules (userPath ++ "/.gitmodules"))
     else retIO tt) ;;
    check h (RemoveAll tempDir) ;;
    let gitCmd2 :=
      (Fields (baseGit userPath)
       ++ ["config"; "status.showUntrackedFiles"; "no"])%list in
    runCommand false gitCmd2 ;;
    check h (Chmod (sdfPath userPath) 448) ;;
    say "Restored SDF configuration, activate it with 'sdf git checkout .'".

(** [initNew], main.go:66-93. *)
Definition initNew (h : Host) (userPath url : string) : IO unit :=
  go <- clearPrevious h userPath ;;
  if negb go then retIO tt
  else
    runCommand false ["git"; "init"; "--bare"; sdfPath userPath] ;;
    let gitCmd1 :=
      (Fields (baseGit userPath) ++ ["remote"; "add"; "master"; url])%list in
    runCommand false gitCmd1 ;;
    let gitCmd2 :=
      (Fields (baseGit userPath)
       ++ ["config"; "status.showUntrackedFiles"; "no"])%list in
    runCommand false gitCmd2 ;;
    check h (Chmod (sdfPath userPath) 448) ;;
    say "Initialized new configuration.".

(** *** [main], main.go:152-204, on [os.Args] *)

Definition main (h : Host) (userPath : string) (Args : list string)
  : IO unit :=
  if (length Args =? 1)%nat then status userPath
  else
    sub <- liftIO (index Args 1) ;;
    if sub =? "add" then
      if (length Args <? 3)%nat then say "At least 1 file path is required."
      else paths <- liftIO (sliceArgs Args 2) ;; addToVCS userPath paths
    else if sub =? "git" then
      if (length Args <? 3)%nat then say "Please provide more commands."
      else cmd <- liftIO (sliceArgs Args 2) ;; delegateCmdToVCS userPath cmd
    else if sub =? "init" then
      if (4 <=? length Args)%nat then say "Too many parameters."
      else if negb (length Args =? 3)%nat then say "URL required."
      else url <- liftIO (index Args 2) ;; initFromVCS h userPath url
    else if sub =? "new" then
      if (4 <=? length Args)%nat then say "Too many parameters."
      else if negb (length Args =? 3)%nat then say "URL required."
      else url <- liftIO (index Args 2) ;; initNew h userPath url
    else if sub =? "rm" then
      if (length Args <? 3)%nat then say "At least 1 file path is required."
      else paths <- liftIO (sliceArgs Args 2) ;; rmFromVCS userPath paths
    else if sub =? "trace" then
      if (length Args <? 3)%nat then say "Please provide command."
      else
        inCmd <- liftIO (sliceArgs Args 2) ;;
        runTrace (traceCmdOn (hostOS h) (launch h) userPath inCmd)
    else say "Invalid command.".

(** *** Vocabulary of the statements *)

(** The three arguments every git command starts with. *)
Definition gitArgv (userPath : string) : list string :=
  ["git"; "--git-dir=" ++ userPath ++ "/.config/sdf";
   "--work-tree=" ++ userPath].


(** An action that only writes to the terminal. *)
Definition onlyPrints (a : Act) : bool :=
  match a with
  | Ev (EvPrintln _) | Printf _ => true
  | _ => false
  end.

(** The number of prompts among the actions. *)
Fixpoint prompts (l : list Act) : nat :=
  match l with
  | [] => 0
  | Printf _ :: l' => S (prompts l')
  | _ :: l' => prompts l'
  end.

(** The file-system calls are the actions that can fail; all of them are
    made under [check]. *)
Definition failing (h : Host) (a : Act) : bool :=
  match a with
  | RemoveAll _ | MkdirAll _ _ | Rename _ _ | Chmod _ _ => fails h a
  | _ => false
  end.

(** The actions of [plan] made in order after [log], up to and including
    the first call that fails, which panics. *)
Fixpoint perform (h : Host) (plan log : list Act)
  : Outcome unit * list Act :=
  match plan with
  | [] => (Done tt, log)
  | a :: plan' =>
      if failing h a then (Panic "check", (log ++ [a])%list)
      else perform h plan' (log ++ [a])%list
  end.

Definition msgNew : string := "Initialized new configuration.".

Definition msgRestored : string :=
  "Restored SDF configuration, activate it with 'sdf git checkout .'".

(** What [initNew] does once the way is clear; [git] is the start of the
    git command line. *)
Definition planNew (git : list string) (userPath url : string) : list Act :=
  [Run false ["git"; "init"; "--bare"; sdfPath userPath];
   Run false (git ++ ["remote"; "add"; "master"; url])%list;
   Run false (git ++ ["config"; "status.showUntrackedFiles"; "no"])%list;
   Chmod (sdfPath userPath) 448;
   Ev (EvPrintln msgNew)].

(** What [initFromVCS] does once the way is clear; [modules] tells whether
    the clone has a .gitmodules file. *)
Definition planFromVCS (git : list string) (modules : bool)
           (userPath url : string) : list Act :=
  let tempDir := userPath ++ "/.config/sdf-tmp" in
  let start :=
    [MkdirAll (userPath ++ "/.config") 384;
     Run true ["git"; "clone"; "--separate-git-dir=" ++ sdfPath userPath; url;
               tempDir]] in
  let move :=
    if modules
    then [Rename (tempDir ++ "/.gitmodules") (userPath ++ "/.gitmodules")]
    else [] in
  let finish :=
    [RemoveAll tempDir;
     Run false (git ++ ["config"; "status.showUntrackedFiles"; "no"])%list;
     Chmod (sdfPath userPath) 448;
     Ev (EvPrintln msgRestored)] in
  (start ++ move ++ finish)%list.

(** The result of a command that performed a plan and left [input]
    unread. *)
Definition ran (p : Outcome unit * list Act) (input : string)
  : Outcome unit * Sys :=
  (fst p, mkSys (snd p) input).

(** A run from an empty log with [input] on standard input. *)
Definition fresh (input : string) : Sys := mkSys [] input.

(** A host where nothing exists yet and no call fails; strace starts and
    its standard error is closed at the end. *)
Definition cleanHost (os : OS) : Host :=
  mkHost os (Starts true) (fun _ => true) (fun _ => false).

(** A host where every path exists and no call fails. *)
Definition usedHost (os : OS) : Host :=
  mkHost os (Starts true) (fun _ => false) (fun _ => false).

(** The host [h] with another launch of strace. *)
Definition withLaunch (h : Host) (l : Launch) : Host :=
  mkHost (hostOS h) l (notExist h) (fails h).

End Cli.
Import Cli.

Example fields_strace :
  Fields "-f -e trace=openat" = ["-f"; "-e"; "trace=openat"].
Proof. reflexivity. Qed.

Example run_scenarioB :
  traceCmd (Sample.linux Sample.scenarioB 0) Sample.alice
           ["/bin/cat"; "/etc/passwd"] initial
  = (Done tt,
     mkWorld [EvLookPath "strace"; EvLookPath "/bin/cat";
              EvStart ["strace"; "-f"; "-e"; "trace=openat";
                       "/bin/cat"; "/etc/passwd"];
              EvPrintln ".bashrc"; EvPrintln ".bashrc"; EvWait]
             EmptyString None).
Proof. vm_compute. reflexivity. Qed.

(** ** Strings *)

Section StringFacts.

Variable sep : ascii.

Lemma hasByte_app a b :
  hasByte sep (a ++ b) = hasByte sep a || hasByte sep b.
Proof.
  induction a as [|c a IH]; simpl; [reflexivity|].
  rewrite IH. apply orb_assoc.
Qed.

Lemma Split_not_nil s : Split s sep <> [].
Proof.
  destruct s as [|c s]; simpl; [discriminate|].
  destruct (Ascii.eqb c sep); [discriminate|].
  destruct (Split s sep); discriminate.
Qed.

Lemma Split_length_cons c s :
  length (Split (String c s) sep) =
  if Ascii.eqb c sep then S (length (Split s sep))
  else length (Split s sep).
Proof.
  simpl. destruct (Ascii.eqb c sep); [reflexivity|].
  pose proof (Split_not_nil s) as Hn.
  destruct (Split s sep); [congruence | reflexivity].
Qed.

Lemma Split_no_sep s : hasByte sep s = false -> Split s sep = [s].
Proof.
  induction s as [|c s IH]; simpl; [reflexivity|].
  intros H. apply orb_false_iff in H as [Hc Hs].
  rewrite Hc, (IH Hs). reflexivity.
Qed.

Lemma Split_app_sep a b :
  hasByte sep a = false ->
  Split (a ++ String sep b) sep = a :: Split b sep.
Proof.
  induction a as [|c a IH]; simpl.
  - intros _. rewrite Ascii.eqb_refl. reflexivity.
  - intros H. apply orb_false_iff in H as [Hc Ha].
    rewrite Hc, (IH Ha). reflexivity.
Qed.

Lemma Split_length_app s t :
  hasByte sep t = false ->
  length (Split (s ++ t) sep) = length (Split s sep).
Proof.
  intros Ht. induction s as [|c s IH].
  - simpl. rewrite Split_no_sep by assumption. reflexivity.
  - change (String c s ++ t) with (String c (s ++ t)).
    rewrite !Split_length_cons, IH. reflexivity.
Qed.

Lemma Split_length_count s : length (Split s sep) = S (countByte sep s).
Proof.
  induction s as [|c s IH]; [reflexivity|].
  rewrite Split_length_cons, IH. simpl countByte.
  destruct (Ascii.eqb c sep); reflexivity.
Qed.

Lemma Split_cons_inv s a b l :
  Split s sep = a :: b :: l ->
  exists s', s = a ++ String sep s' /\ free sep a /\ Split s' sep = b :: l.
Proof.
  revert a. induction s as [|c s IH]; intros a; simpl; [discriminate|].
  destruct (Ascii.eqb c sep) eqn:Hc.
  - apply Ascii.eqb_eq in Hc as ->. intros [= <- Hs].
    exists s. repeat split. exact Hs.
  - destruct (Split s sep) as [|t ts] eqn:Hs; [discriminate|].
    intros [= <- ->]. destruct (IH t eq_refl) as (s' & -> & Ht & Hs').
    exists s'. repeat split; [|exact Hs'].
    unfold free. simpl. rewrite Hc. exact Ht.
Qed.

Lemma ReadString_line l rest :
  hasByte sep l = false ->
  ReadString (l ++ String sep rest) sep = (l ++ byte sep, rest, false).
Proof.
  induction l as [|c l IH]; simpl.
  - intros _. rewrite Ascii.eqb_refl. reflexivity.
  - intros H. apply orb_false_iff in H as [Hc Hl].
    rewrite Hc, (IH Hl). reflexivity.
Qed.

Lemma ReadString_eof t :
  hasByte sep t = false ->
  ReadString t sep = (t, EmptyString, true).
Proof.
  induction t as [|c t IH]; simpl; [reflexivity|].
  intros H. apply orb_false_iff in H as [Hc Ht].
  rewrite Hc, (IH Ht). reflexivity.
Qed.

End StringFacts.

Lemma app_empty_r (s : string) : s ++ EmptyString = s.
Proof. induction s as [|c s IH]; simpl; congruence. Qed.

Lemma app_assoc_s (a b c : string) : (a ++ b) ++ c = a ++ b ++ c.
Proof. induction a as [|x a IH]; simpl; congruence. Qed.

Lemma len_app (a b : string) : len (a ++ b) = len a + len b.
Proof. unfold len. induction a as [|x a IH]; simpl; congruence. Qed.

Lemma HasPrefix_app (h s : string) : HasPrefix (h ++ s) h = true.
Proof.
  induction h as [|c h IH]; simpl; [reflexivity|].
  rewrite Ascii.eqb_refl. exact IH.
Qed.

Lemma HasPrefix_inv (p h : string) :
  HasPrefix p h = true -> exists s, p = h ++ s.
Proof.
  revert p. induction h as [|c h IH]; intros p; simpl.
  - intros _. exists p. reflexivity.
  - destruct p as [|x p]; [discriminate|].
    destruct (Ascii.eqb_spec x c) as [->|]; [|discriminate].
    intros H. destruct (IH _ H) as [s ->]. exists s. reflexivity.
Qed.

Lemma sliceFrom_skip (h : string) (c : ascii) (s : string) :
  sliceFrom (h ++ String c s) (len h + 1) = Done s.
Proof.
  induction h as [|x h IH]; simpl; [destruct s; reflexivity | exact IH].
Qed.

(** ** The pure steps never panic *)

Lemma normalize_prefixed (h : string) (c : ascii) (s : string) :
  normalize (h ++ String c s) h = Done (Some s).
Proof.
  unfold normalize. rewrite HasPrefix_app, len_app.
  replace (len h + len (String c s) =? len h)%nat with false.
  - rewrite sliceFrom_skip. reflexivity.
  - symmetry. apply Nat.eqb_neq. unfold len. simpl. lia.
Qed.

Lemma normalize_home (h : string) : normalize h h = Done None.
Proof.
  unfold normalize. rewrite <- (app_empty_r h) at 1.
  rewrite HasPrefix_app, Nat.eqb_refl. reflexivity.
Qed.

Lemma normalize_not_prefixed (p h : string) :
  HasPrefix p h = false -> normalize p h = Done None.
Proof. unfold normalize. intros ->. reflexivity. Qed.

(** [normalize] yields a path exactly for [userPath] followed by at least
    one byte, and drops that byte whatever it is. *)
Lemma normalize_some_inv (p h rel : string) :
  normalize p h = Done (Some rel) -> exists c, p = h ++ String c rel.
Proof.
  intros H. destruct (HasPrefix p h) eqn:Hp.
  - destruct (HasPrefix_inv _ _ Hp) as [s ->]. destruct s as [|c s].
    + rewrite app_empty_r, normalize_home in H. discriminate.
    + rewrite normalize_prefixed in H. injection H as <-. eauto.
  - rewrite (normalize_not_prefixed _ _ Hp) in H. discriminate.
Qed.

Lemma normalize_total (p h : string) : exists r, normalize p h = Done r.
Proof.
  destruct (HasPrefix p h) eqn:Hp.
  - destruct (HasPrefix_inv _ _ Hp) as [s ->]. destruct s as [|c s].
    + rewrite app_empty_r, normalize_home. eauto.
    + rewrite normalize_prefixed. eauto.
  - rewrite (normalize_not_prefixed _ _ Hp). eauto.
Qed.

Lemma parseLine_total (line : string) : exists r, parseLine line = Done r.
Proof.
  unfold parseLine.
  destruct (Nat.ltb_spec 2 (length (Split line dquote))) as [H|H]; [|eauto].
  destruct (Split line dquote) as [|a [|b l]]; simpl in H; try lia.
  simpl. eauto.
Qed.

Lemma parseLine_few (line : string) :
  length (Split line dquote) < 3 -> parseLine line = Done None.
Proof.
  intros H. unfold parseLine.
  destruct (Nat.ltb_spec 2 (length (Split line dquote))); [lia | reflexivity].
Qed.

Lemma parseLine_quoted (pre path post : string) :
  free dquote pre -> free dquote path ->
  parseLine (pre ++ byte dquote ++ path ++ byte dquote ++ post)
  = Done (Some path).
Proof.
  intros Hpre Hpath. unfold parseLine, byte. simpl.
  rewrite !Split_app_sep by assumption.
  pose proof (Split_not_nil dquote post) as Hn.
  destruct (Split post dquote); [congruence | reflexivity].
Qed.

(** ** One iteration *)

Lemma printed_nil (w : World) : printed [] w = w.
Proof. destruct w. unfold printed. simpl. rewrite app_nil_r. reflexivity. Qed.

Lemma lineBody_run (userPath line : string) (w : World) :
  lineBody userPath line w = (Done tt, printed (emitted userPath line) w).
Proof.
  unfold emitted, lineBody, bind, lift.
  destruct (parseLine_total line) as [[path|] ->].
  - destruct (normalize_total path userPath) as [[rel|] ->]; simpl.
    + reflexivity.
    + rewrite printed_nil. reflexivity.
  - simpl. rewrite printed_nil. reflexivity.
Qed.

Lemma emitted_parse (userPath line : string) :
  emitted userPath line =
  match parseLine line with
  | Done (Some path) =>
      match normalize path userPath with
      | Done (Some rel) => [rel]
      | _ => []
      end
  | _ => []
  end.
Proof.
  unfold emitted, lineBody, bind, lift.
  destruct (parseLine_total line) as [[path|] ->]; [|reflexivity].
  destruct (normalize_total path userPath) as [[rel|] ->]; reflexivity.
Qed.

(** ** The loop *)

Lemma joinLines_length (ls : list string) :
  length ls <= len (joinLines ls).
Proof.
  induction ls as [|l ls IH]; simpl; [lia|].
  rewrite len_app. unfold len, byte in *. simpl. lia.
Qed.

(** Every stream is a sequence of complete lines followed by the bytes
    after the last line feed. *)
Lemma stream_decompose (stream : string) :
  exists ls tail,
    stream = joinLines ls ++ tail /\
    Forall (free newline) ls /\ free newline tail.
Proof.
  induction stream as [|c s (ls & tail & -> & Hls & Htail)].
  - exists [], EmptyString. repeat split; constructor.
  - destruct (Ascii.eqb c newline) eqn:Hc.
    + apply Ascii.eqb_eq in Hc as ->.
      exists (EmptyString :: ls), tail. split; [reflexivity|].
      split; [constructor; [reflexivity | exact Hls] | exact Htail].
    + destruct ls as [|l ls].
      * exists [], (String c tail). split; [reflexivity|].
        split; [constructor|]. unfold free. simpl. rewrite Hc. exact Htail.
      * exists (String c l :: ls), tail. split; [reflexivity|].
        split; [|exact Htail].
        inversion Hls; subst. constructor; [|assumption].
        unfold free. simpl. rewrite Hc. assumption.
Qed.

Lemma readLoop_lines (userPath : string) (ls : list string) (tail : string) :
  Forall (free newline) ls -> free newline tail ->
  forall fuel evs c,
    length ls < fuel ->
    readLoop fuel userPath (mkWorld evs (joinLines ls ++ tail) c)
    = (Done tt,
       mkWorld (evs ++ map EvPrintln (perLine userPath ls))%list
               EmptyString c).
Proof.
  intros Hls Htail. induction Hls as [|l ls Hl Hls IH];
    intros [|fuel] evs c Hfuel; try (simpl in Hfuel; lia).
  - simpl. unfold bind, readLine. simpl.
    rewrite ReadString_eof by assumption. simpl.
    rewrite app_nil_r. reflexivity.
  - simpl joinLines. unfold byte.
    rewrite !app_assoc_s. simpl append.
    cbn [readLoop]. unfold bind at 1. unfold readLine. cbn [pipe events child].
    rewrite ReadString_line by assumption.
    unfold bind at 1. rewrite lineBody_run. unfold printed. cbn [pipe events child].
    rewrite IH by (simpl in Hfuel; lia).
    unfold perLine. simpl flat_map. rewrite map_app, app_assoc. reflexivity.
Qed.

Lemma drain_lines (userPath : string) (ls : list string) (tail : string)
      (evs : list Event) (c : option nat) :
  Forall (free newline) ls -> free newline tail ->
  drain userPath (mkWorld evs (joinLines ls ++ tail) c)
  = (Done tt,
     mkWorld (evs ++ map EvPrintln (perLine userPath ls))%list EmptyString c).
Proof.
  intros Hls Htail. unfold drain. apply readLoop_lines; auto.
  cbn [pipe]. rewrite len_app. pose proof (joinLines_length ls). lia.
Qed.

Lemma stdout_println (outs : list string) : stdout (map EvPrintln outs) = outs.
Proof. induction outs as [|o outs IH]; simpl; congruence. Qed.

Lemma traceOutput_lines (userPath : string) (ls : list string) (tail : string) :
  Forall (free newline) ls -> free newline tail ->
  traceOutput userPath (joinLines ls ++ tail) = perLine userPath ls.
Proof.
  intros Hls Htail. unfold traceOutput.
  rewrite (drain_lines userPath ls tail [] None Hls Htail). simpl.
  apply stdout_println.
Qed.

(** ** The whole command *)

Lemma drain_total (userPath : string) (evs : list Event) (stream : string)
      (c : option nat) :
  drain userPath (mkWorld evs stream c)
  = (Done tt,
     mkWorld (evs ++ map EvPrintln (traceOutput userPath stream))%list
             EmptyString c).
Proof.
  destruct (stream_decompose stream) as (ls & tail & -> & Hls & Htail).
  rewrite drain_lines, traceOutput_lines by assumption. reflexivity.
Qed.

Lemma traceCmd_launched (os : OS) (userPath prog : string) (args : list string) :
  onPath os "strace" = true -> onPath os prog = true ->
  pipeFails os = false ->
  traceCmd os userPath (prog :: args) initial
  = (Done tt,
     mkWorld ([EvLookPath "strace"; EvLookPath prog;
               EvStart (straceArgv (prog :: args))]
              ++ map EvPrintln
                   (traceOutput userPath
                      (childStderr os (straceArgv (prog :: args))))
              ++ [EvWait])%list
             EmptyString None).
Proof.
  intros Hs Hp Hpipe.
  unfold traceCmd, LookPath, StderrPipe, Start, Wait, bind, log, ret, lift,
    index.
  cbn [nth_error events pipe child initial app].
  rewrite Hs, Hp, Hpipe. cbn [negb].
  change (["strace"] ++ Fields "-f -e trace=openat" ++ prog :: args)%list
    with (straceArgv (prog :: args)).
  rewrite drain_total. cbn [events pipe child].
  rewrite <- !app_assoc. reflexivity.
Qed.

Lemma traceCmd_no_strace (os : OS) (userPath : string) (inCmd : list string) :
  onPath os "strace" = false ->
  traceCmd os userPath inCmd initial
  = (Done tt,
     mkWorld [EvLookPath "strace"; EvPrintln msgNoStrace] EmptyString None).
Proof.
  intros Hs. unfold traceCmd, LookPath, Println, bind, log, ret.
  cbn [events pipe child initial app]. rewrite Hs. reflexivity.
Qed.

Lemma traceCmd_no_binary (os : OS) (userPath prog : string)
      (args : list string) :
  onPath os "strace" = true -> onPath os prog = false ->
  traceCmd os userPath (prog :: args) initial
  = (Done tt,
     mkWorld [EvLookPath "strace"; EvLookPath prog; EvPrintln msgNoBinary]
             EmptyString None).
Proof.
  intros Hs Hp. unfold traceCmd, LookPath, Println, bind, log, ret, lift, index.
  cbn [nth_error events pipe child initial app]. rewrite Hs. cbn [negb].
  cbn [events pipe child app]. rewrite Hp. reflexivity.
Qed.

(** ** The path normalizer *)

(** C1, normalizer prefix law: for every home directory [homeDir] and every
    path [homeDir ++ "/" ++ suffix] with a non-empty [suffix], the
    normalizer returns exactly [suffix]; and a line whose parsed path is
    that path makes the loop body print exactly [suffix]. *)
Theorem normalizer_prefix_law (homeDir suffix : string) :
  suffix <> EmptyString ->
  normalize (homeDir ++ byte slash ++ suffix) homeDir = Done (Some suffix) /\
  forall line,
    parseLine line = Done (Some (homeDir ++ byte slash ++ suffix)) ->
    emitted homeDir line = [suffix].
Proof.
  intros _. pose proof (normalize_prefixed homeDir slash suffix) as Hn.
  split; [exact Hn|].
  intros line Hline. rewrite emitted_parse, Hline.
  unfold byte. simpl append. rewrite Hn. reflexivity.
Qed.

Lemma normalizer_prefix_law_witness :
  ".bashrc" <> EmptyString /\
  normalize "/home/alice/.bashrc" "/home/alice" = Done (Some ".bashrc").
Proof.
  split; [discriminate|].
  apply (normalizer_prefix_law "/home/alice" ".bashrc").
  discriminate.
Defined.

(** C2, the input on which the normalizer exclusion law fails: with the
    home directory /home/alice, the path /home/alice2/.bashrc has the home
    directory as a string prefix but not as a path prefix; the normalizer
    does not return none, it drops the byte after the prefix and returns
    /.bashrc, which [traceCmd] prints. *)
Theorem normalizer_string_prefix_slip :
  normalize "/home/alice2/.bashrc" "/home/alice" = Done (Some "/.bashrc") /\
  traceOutput "/home/alice"
    (Sample.openat "/home/alice2/.bashrc" ++ Sample.nl) = ["/.bashrc"] /\
  stdout (events (snd
    (traceCmd
       (Sample.linux (Sample.openat "/home/alice2/.bashrc" ++ Sample.nl) 0)
       "/home/alice" ["/bin/cat"; "/etc/passwd"] initial)))
  = ["/.bashrc"].
Proof. repeat split; vm_compute; reflexivity. Qed.

(** The two cases of the exclusion law that the code does satisfy: the
    home directory itself, and a path that does not start with the bytes of
    the home directory. *)
Lemma normalizer_exclusion_holds (path homeDir : string) :
  path = homeDir \/ HasPrefix path homeDir = false ->
  normalize path homeDir = Done None /\
  forall line, parseLine line = Done (Some path) -> emitted homeDir line = [].
Proof.
  intros H.
  assert (Hn : normalize path homeDir = Done None).
  { destruct H as [->|H];
      [apply normalize_home | apply normalize_not_prefixed, H]. }
  split; [exact Hn|].
  intros line Hline. rewrite emitted_parse, Hline, Hn. reflexivity.
Qed.

(** ** The trace event parser *)

(** C5, parser extraction: for every line made of a prefix without
    double quote, the path /home/user/.bashrc between double quotes, and
    any suffix, the parser extracts /home/user/.bashrc exactly. *)
Theorem parser_extraction (pre post : string) :
  free dquote pre ->
  parseLine (pre ++ byte dquote ++ "/home/user/.bashrc" ++ byte dquote ++ post)
  = Done (Some "/home/user/.bashrc").
Proof.
  intros Hpre. apply parseLine_quoted; [exact Hpre | reflexivity].
Qed.

Lemma parser_extraction_witness :
  free dquote "openat(AT_FDCWD, " /\
  parseLine (Sample.openat "/home/user/.bashrc" ++ Sample.nl)
  = Done (Some "/home/user/.bashrc").
Proof.
  split; [reflexivity|].
  exact (parser_extraction "openat(AT_FDCWD, "
           (", O_RDONLY) = 3" ++ Sample.nl) eq_refl).
Defined.

(** C4, parser robustness: a line that splits on the double quote into
    fewer than 3 fragments is no match for the parser, which returns
    normally; the loop prints nothing for it and goes on with the rest of
    the stream exactly as if the line had not been there, and returns. *)
Theorem parser_robustness (userPath line rest : string)
        (evs : list Event) (c : option nat) :
  free newline line ->
  length (Split (line ++ byte newline) dquote) < 3 ->
  parseLine (line ++ byte newline) = Done None /\
  emitted userPath (line ++ byte newline) = [] /\
  drain userPath (mkWorld evs (line ++ byte newline ++ rest) c)
  = drain userPath (mkWorld evs rest c) /\
  fst (drain userPath (mkWorld evs (line ++ byte newline ++ rest) c))
  = Done tt.
Proof.
  intros Hline Hfew.
  pose proof (parseLine_few _ Hfew) as Hparse.
  assert (Hemit : emitted userPath (line ++ byte newline) = []).
  { rewrite emitted_parse, Hparse. reflexivity. }
  repeat split; trivial.
  - destruct (stream_decompose rest) as (ls & tail & -> & Hls & Htail).
    change (line ++ byte newline ++ joinLines ls ++ tail)
      with (line ++ (byte newline ++ joinLines ls) ++ tail).
    rewrite <- app_assoc_s.
    change ((line ++ byte newline ++ joinLines ls))
      with (joinLines (line :: ls)).
    rewrite !drain_lines by (try constructor; assumption).
    unfold perLine. simpl flat_map. fold (perLine userPath ls).
    rewrite Hemit. reflexivity.
  - rewrite drain_total. reflexivity.
Qed.

Lemma parser_robustness_witness :
  drain "/home/alice"
    (mkWorld [] ("+++ exited with 0 +++" ++ Sample.nl ++ Sample.scenarioB) None)
  = drain "/home/alice" (mkWorld [] Sample.scenarioB None).
Proof.
  apply (parser_robustness "/home/alice" "+++ exited with 0 +++"
           Sample.scenarioB [] None).
  - reflexivity.
  - vm_compute. lia.
Defined.

(** ** The stream of candidate paths *)

(** C3, order preservation without deduplication: for a stream of lines
    [ls], what the tracer prints is the concatenation, in the order of the
    lines, of what the loop body prints for each line on its own; so when
    line i prints [r_i] the output is [r_1 ... r_n], repetitions included.
    Scenario B: two lines for /home/alice/.bashrc around one for
    /etc/passwd, home directory /home/alice, print .bashrc twice and
    nothing else. *)
Theorem order_preserved_no_dedup (userPath : string) (ls : list string) :
  Forall (free newline) ls ->
  traceOutput userPath (joinLines ls)
  = flat_map (fun l => emitted userPath (l ++ byte newline)) ls /\
  (forall rs,
      Forall2 (fun l r => emitted userPath (l ++ byte newline) = [r]) ls rs ->
      traceOutput userPath (joinLines ls) = rs) /\
  traceOutput Sample.alice Sample.scenarioB = [".bashrc"; ".bashrc"] /\
  stdout (events (snd
    (traceCmd (Sample.linux Sample.scenarioB 0) Sample.alice
              ["/bin/cat"; "/etc/passwd"] initial)))
  = [".bashrc"; ".bashrc"].
Proof.
  intros Hls.
  assert (Hout : traceOutput userPath (joinLines ls) = perLine userPath ls).
  { rewrite <- (app_empty_r (joinLines ls)).
    apply traceOutput_lines; [exact Hls | reflexivity]. }
  split; [exact Hout|]. split; [|split; vm_compute; reflexivity].
  intros rs Hrs. rewrite Hout. unfold perLine.
  induction Hrs as [|l r ls' rs' Hl _ IH]; [reflexivity|].
  simpl. rewrite Hl. simpl. f_equal. apply IH.
  - inversion Hls; assumption.
  - rewrite <- (app_empty_r (joinLines ls')).
    apply traceOutput_lines; [inversion Hls; assumption | reflexivity].
Qed.

Lemma order_preserved_no_dedup_witness :
  traceOutput "/home/alice"
    (joinLines [Sample.openat "/home/alice/.vimrc";
                Sample.openat "/home/alice/.bashrc";
                Sample.openat "/home/alice/.vimrc"])
  = [".vimrc"; ".bashrc"; ".vimrc"].
Proof.
  apply (order_preserved_no_dedup "/home/alice"
           [Sample.openat "/home/alice/.vimrc";
            Sample.openat "/home/alice/.bashrc";
            Sample.openat "/home/alice/.vimrc"]).
  - repeat constructor.
  - repeat constructor.
Defined.

(** C9, a stream that ends without a line feed: the bytes after the last
    line feed are read together with the end of stream and dropped, so the
    run is the one of the stream without them; a lone well-formed line for
    /home/alice/.bashrc without its line feed prints nothing, although the
    loop body would print .bashrc for it. *)
Theorem partial_last_line_discarded (userPath : string) (ls : list string)
        (tail : string) (evs : list Event) (c : option nat) :
  Forall (free newline) ls -> free newline tail ->
  drain userPath (mkWorld evs (joinLines ls ++ tail) c)
  = drain userPath (mkWorld evs (joinLines ls) c) /\
  traceOutput userPath (joinLines ls ++ tail)
  = traceOutput userPath (joinLines ls) /\
  traceOutput Sample.alice (Sample.openat "/home/alice/.bashrc") = [] /\
  emitted Sample.alice (Sample.openat "/home/alice/.bashrc") = [".bashrc"].
Proof.
  intros Hls Htail.
  assert (Hd : forall e k,
             drain userPath (mkWorld e (joinLines ls ++ tail) k)
             = drain userPath (mkWorld e (joinLines ls) k)).
  { intros e k. rewrite <- (app_empty_r (joinLines ls)) at 2.
    rewrite !drain_lines; trivial. reflexivity. }
  split; [apply Hd|]. split; [|split; vm_compute; reflexivity].
  unfold traceOutput. rewrite Hd. reflexivity.
Qed.

Lemma partial_last_line_discarded_witness :
  traceOutput "/home/alice"
    (joinLines [Sample.openat "/home/alice/.vimrc"]
     ++ Sample.openat "/home/alice/.bashrc")
  = traceOutput "/home/alice" (joinLines [Sample.openat "/home/alice/.vimrc"]).
Proof.
  apply (partial_last_line_discarded "/home/alice"
           [Sample.openat "/home/alice/.vimrc"]
           (Sample.openat "/home/alice/.bashrc") [] None).
  - repeat constructor.
  - reflexivity.
Defined.

(** C10, no inspection of the call name: every line with at least two
    double quotes is a prefix without double quote, a text [path] between
    the first and the second double quote, and a rest; the parser returns
    [path] whatever the prefix is, and when [path] is the home directory, a
    separator and [rel], the loop body prints [rel].  A signal annotation
    of strace that quotes a path under /home/alice is reported like an
    openat entry. *)
Theorem call_name_not_inspected (userPath line : string) :
  2 <= countByte dquote line ->
  (exists pre path post,
      line = pre ++ byte dquote ++ path ++ byte dquote ++ post /\
      free dquote pre /\ free dquote path /\
      parseLine line = Done (Some path) /\
      forall rel,
        path = userPath ++ byte slash ++ rel ->
        emitted userPath line = [rel]) /\
  traceOutput Sample.alice
    (Sample.annotation "/home/alice/core" ++ Sample.nl) = ["core"].
Proof.
  intros Hcount. split; [|vm_compute; reflexivity].
  pose proof (Split_length_count dquote line) as Hlen.
  destruct (Split line dquote) as [|pre [|path [|x l]]] eqn:Hsplit;
    simpl in Hlen; try lia.
  destruct (Split_cons_inv _ _ _ _ _ Hsplit) as (s1 & -> & Hpre & Hs1).
  destruct (Split_cons_inv _ _ _ _ _ Hs1) as (post & -> & Hpath & _).
  pose proof (parseLine_quoted pre path post Hpre Hpath) as Hparse.
  exists pre, path, post. repeat split; trivial.
  intros rel ->. unfold byte in *. simpl append in *.
  rewrite emitted_parse, Hparse, normalize_prefixed. reflexivity.
Qed.

Lemma call_name_not_inspected_witness :
  2 <= countByte dquote (Sample.annotation "/home/alice/core" ++ Sample.nl) /\
  exists pre path post,
    Sample.annotation "/home/alice/core" ++ Sample.nl
    = pre ++ byte dquote ++ path ++ byte dquote ++ post /\
    free dquote pre /\ free dquote path /\
    parseLine (Sample.annotation "/home/alice/core" ++ Sample.nl)
    = Done (Some path) /\
    forall rel,
      path = "/home/alice" ++ byte slash ++ rel ->
      emitted "/home/alice"
        (Sample.annotation "/home/alice/core" ++ Sample.nl) = [rel].
Proof.
  assert (H : 2 <= countByte dquote
                     (Sample.annotation "/home/alice/core" ++ Sample.nl))
    by (vm_compute; lia).
  split; [exact H|].
  exact (proj1 (call_name_not_inspected "/home/alice" _ H)).
Defined.

(** ** Emission invariant *)




(** ** Preconditions and exit *)

(** C6, precondition failures: when strace is not on the search path, or
    it is and the target program is not, [traceCmd] returns normally after
    printing one line (a message without line feed), it starts no process,
    and leaves the world otherwise untouched; the first action is the
    lookup of strace, and when that fails the target is not looked up. *)
Theorem precondition_failure (os : OS) (userPath prog : string)
        (args : list string) :
  onPath os "strace" = false \/ onPath os prog = false ->
  let r := traceCmd os userPath (prog :: args) initial in
  fst r = Done tt /\
  spawned (events (snd r)) = [] /\
  (exists msg, stdout (events (snd r)) = [msg] /\ free newline msg) /\
  pipe (snd r) = EmptyString /\ child (snd r) = None /\
  events (snd r)
  = (if onPath os "strace"
     then [EvLookPath "strace"; EvLookPath prog; EvPrintln msgNoBinary]
     else [EvLookPath "strace"; EvPrintln msgNoStrace]).
Proof.
  intros H r. subst r.
  destruct (onPath os "strace") eqn:Hs.
  - destruct H as [H|Hp]; [discriminate|].
    rewrite (traceCmd_no_binary os userPath prog args Hs Hp). simpl.
    repeat split. exists msgNoBinary. split; reflexivity.
  - rewrite (traceCmd_no_strace os userPath (prog :: args) Hs). simpl.
    repeat split. exists msgNoStrace. split; reflexivity.
Qed.

Lemma precondition_failure_witness :
  stdout (events (snd
    (traceCmd (mkOS (fun _ => false) false (fun _ => Sample.scenarioB)
                    (fun _ => 0))
              "/home/alice" ["ls"] initial)))
  = [msgNoStrace].
Proof.
  pose proof (precondition_failure
                (mkOS (fun _ => false) false (fun _ => Sample.scenarioB)
                      (fun _ => 0))
                "/home/alice" "ls" [] (or_introl eq_refl)) as H.
  cbv zeta in H. destruct H as (_ & _ & _ & _ & _ & H).
  rewrite H. reflexivity.
Defined.

(** C8, exit behaviour: when both lookups succeed and the pipe is obtained,
    [traceCmd] starts the child, prints the candidate paths of its whole
    diagnostic stream, waits on the child and returns normally, with the
    stream drained and the child reaped; the run is the same whatever the
    exit status of the child. *)
Theorem exit_status_discarded (os : OS) (userPath prog : string)
        (args : list string) :
  onPath os "strace" = true -> onPath os prog = true ->
  pipeFails os = false ->
  traceCmd os userPath (prog :: args) initial
  = (Done tt,
     mkWorld ([EvLookPath "strace"; EvLookPath prog;
               EvStart (straceArgv (prog :: args))]
              ++ map EvPrintln
                   (traceOutput userPath
                      (childStderr os (straceArgv (prog :: args))))
              ++ [EvWait])%list
             EmptyString None) /\
  forall status,
    traceCmd (mkOS (onPath os) (pipeFails os) (childStderr os) status)
             userPath (prog :: args) initial
    = traceCmd os userPath (prog :: args) initial.
Proof.
  intros Hs Hp Hpipe. split.
  - apply traceCmd_launched; assumption.
  - intros status. rewrite !traceCmd_launched by assumption. reflexivity.
Qed.

Lemma exit_status_discarded_witness :
  traceCmd (Sample.linux Sample.scenarioB 1) "/home/alice"
           ["/bin/cat"; "/etc/passwd"] initial
  = traceCmd (Sample.linux Sample.scenarioB 0) "/home/alice"
             ["/bin/cat"; "/etc/passwd"] initial.
Proof.
  symmetry.
  apply (exit_status_discarded (Sample.linux Sample.scenarioB 1) "/home/alice"
           "/bin/cat" ["/etc/passwd"] eq_refl eq_refl eq_refl).
Defined.

(** ** The git command line *)

Lemma hasSpace_app (a b : string) :
  hasSpace (a ++ b) = hasSpace a || hasSpace b.
Proof.
  induction a as [|c a IH]; simpl; [reflexivity|].
  rewrite IH. apply orb_assoc.
Qed.

(** White space ends the field being read and starts afresh. *)
Lemma FieldsFrom_space (w : ascii) (b : string) :
  isSpace w = true ->
  forall a cur,
    FieldsFrom cur (a ++ String w b)
    = (FieldsFrom cur a ++ FieldsFrom None b)%list.
Proof.
  intros Hw. induction a as [|c a IH]; intros cur.
  - simpl. rewrite Hw. destruct cur; reflexivity.
  - simpl. destruct (isSpace c), cur; simpl; rewrite IH; reflexivity.
Qed.

Lemma FieldsFrom_token (t : string) :
  hasSpace t = false -> forall f, FieldsFrom (Some f) t = [f ++ t].
Proof.
  induction t as [|c t IH]; simpl; intros H f.
  - rewrite app_empty_r. reflexivity.
  - apply orb_false_iff in H as [Hc Ht]. rewrite Hc, (IH Ht).
    rewrite app_assoc_s. reflexivity.
Qed.

Lemma Fields_token (t : string) :
  hasSpace t = false -> t <> EmptyString -> Fields t = [t].
Proof.
  destruct t as [|c t]; [congruence|]. simpl. intros H _.
  apply orb_false_iff in H as [Hc Ht]. unfold Fields. simpl.
  rewrite Hc. apply (FieldsFrom_token t Ht).
Qed.

Lemma FieldsFrom_some (s f : string) : FieldsFrom (Some f) s <> [].
Proof.
  revert f. induction s as [|c s IH]; intros f; simpl; [discriminate|].
  destruct (isSpace c); [discriminate | apply IH].
Qed.

(** A byte that is not white space makes a field. *)
Lemma FieldsFrom_nonempty (c : ascii) (b : string) :
  isSpace c = false ->
  forall a cur, FieldsFrom cur (a ++ String c b) <> [].
Proof.
  intros Hc. induction a as [|x a IH]; intros cur; simpl.
  - rewrite Hc. destruct cur; apply FieldsFrom_some.
  - destruct (isSpace x), cur; try discriminate; apply IH.
Qed.

Lemma first_space (u : string) :
  hasSpace u = true ->
  exists u1 w u2,
    u = u1 ++ String w u2 /\ hasSpace u1 = false /\ isSpace w = true.
Proof.
  induction u as [|c u IH]; simpl; [discriminate|].
  destruct (isSpace c) eqn:Hc.
  - intros _. exists EmptyString, c, u. repeat split. exact Hc.
  - simpl. intros H. destruct (IH H) as (u1 & w & u2 & -> & H1 & Hw).
    exists (String c u1), w, u2. repeat split; [|exact Hw].
    simpl. rewrite Hc. exact H1.
Qed.

Lemma baseGit_shape (userPath : string) :
  baseGit userPath
  = "git" ++ String " "
      (("--git-dir=" ++ userPath ++ "/.config/sdf")
         ++ String " " ("--work-tree=" ++ userPath)).
Proof.
  unfold baseGit, sdfPath. simpl. rewrite app_assoc_s. reflexivity.
Qed.

(** The command line always starts with git, whatever HOME is. *)
Lemma Fields_baseGit_head (userPath : string) :
  Fields (baseGit userPath)
  = "git" :: Fields (("--git-dir=" ++ userPath ++ "/.config/sdf")
                       ++ String " " ("--work-tree=" ++ userPath)).
Proof.
  rewrite baseGit_shape. unfold Fields.
  rewrite FieldsFrom_space by reflexivity. reflexivity.
Qed.

(** A sub-command written after [baseGit] is a field of its own. *)
Lemma Fields_baseGit_sub (userPath sub : string) :
  hasSpace sub = false -> sub <> EmptyString ->
  Fields (baseGit userPath ++ String " " sub)
  = (Fields (baseGit userPath) ++ [sub])%list.
Proof.
  intros Hs Hne. unfold Fields at 1.
  rewrite FieldsFrom_space by reflexivity.
  fold (Fields sub). rewrite (Fields_token sub Hs Hne). reflexivity.
Qed.

Lemma Fields_baseGit_clean (userPath : string) :
  hasSpace userPath = false -> Fields (baseGit userPath) = gitArgv userPath.
Proof.
  intros Hu. rewrite Fields_baseGit_head. unfold Fields, gitArgv.
  rewrite FieldsFrom_space by reflexivity.
  fold (Fields ("--git-dir=" ++ userPath ++ "/.config/sdf")).
  fold (Fields ("--work-tree=" ++ userPath)).
  rewrite !Fields_token; try discriminate; try reflexivity.
  - simpl. exact Hu.
  - simpl. rewrite hasSpace_app, Hu. reflexivity.
Qed.

(** X1, HOME and the git command line: for an ASCII home directory, the
    fields of [baseGit] are the three arguments git, --git-dir=HOME/.config/sdf
    and --work-tree=HOME exactly when HOME has no white space; with white
    space in HOME there are at least four fields and the --git-dir argument
    is cut at the first white space. *)
Theorem baseGit_fields (userPath : string) :
  isASCII userPath = true ->
  (Fields (baseGit userPath) = gitArgv userPath
   <-> hasSpace userPath = false) /\
  (hasSpace userPath = true ->
   4 <= length (Fields (baseGit userPath)) /\
   exists u1 w u2,
     userPath = u1 ++ String w u2 /\ hasSpace u1 = false /\
     isSpace w = true /\
     nth_error (Fields (baseGit userPath)) 1 = Some ("--git-dir=" ++ u1)).
Proof.
  intros _.
  assert (Hdirty : hasSpace userPath = true ->
     4 <= length (Fields (baseGit userPath)) /\
     exists u1 w u2,
       userPath = u1 ++ String w u2 /\ hasSpace u1 = false /\
       isSpace w = true /\
       nth_error (Fields (baseGit userPath)) 1 = Some ("--git-dir=" ++ u1)).
  { intros H. destruct (first_space userPath H) as (u1 & w & u2 & E & H1 & Hw).
    assert (Hf : Fields (baseGit userPath)
                 = "git" :: ("--git-dir=" ++ u1)
                     :: (FieldsFrom None (u2 ++ "/.config/sdf")%string
                         ++ FieldsFrom None
                              ("--work-tree=" ++ userPath)%string)%list).
    { rewrite Fields_baseGit_head. unfold Fields.
      rewrite FieldsFrom_space by reflexivity. rewrite E at 1.
      replace ("--git-dir=" ++ (u1 ++ String w u2) ++ "/.config/sdf")
        with (("--git-dir=" ++ u1) ++ String w (u2 ++ "/.config/sdf"))
        by (simpl; rewrite !app_assoc_s; reflexivity).
      rewrite (FieldsFrom_space w _ Hw).
      fold (Fields ("--git-dir=" ++ u1)).
      rewrite Fields_token; [reflexivity | simpl; exact H1 | discriminate]. }
    split.
    - rewrite Hf.
      pose proof (FieldsFrom_nonempty "/" ".config/sdf" eq_refl u2 None) as N1.
      assert (N2 : FieldsFrom None ("--work-tree=" ++ userPath) <> [])
        by exact (FieldsFrom_nonempty "-" ("-work-tree=" ++ userPath) eq_refl
                    EmptyString None).
      cbn [length]. rewrite length_app.
      destruct (FieldsFrom None (u2 ++ "/.config/sdf")); [congruence|].
      destruct (FieldsFrom None ("--work-tree=" ++ userPath)); [congruence|].
      simpl. lia.
    - exists u1, w, u2. rewrite Hf. repeat split; assumption. }
  split; [|exact Hdirty]. split.
  - intros Heq. destruct (hasSpace userPath) eqn:H; [|reflexivity].
    destruct (Hdirty eq_refl) as [Hlen _]. rewrite Heq in Hlen.
    simpl in Hlen. lia.
  - apply Fields_baseGit_clean.
Qed.

Lemma baseGit_fields_witness :
  isASCII "/home/my user" = true /\
  hasSpace "/home/my user" = true /\
  4 <= length (Fields (baseGit "/home/my user")).
Proof.
  split; [reflexivity|]. split; [reflexivity|].
  exact (proj1 (proj2 (baseGit_fields "/home/my user" eq_refl) eq_refl)).
Defined.

(** ** The version-control commands *)

Lemma runCommand_run (b : bool) (name : string) (args : list string)
      (sys : Sys) :
  runCommand b (name :: args) sys
  = (Done tt, mkSys (acts sys ++ [Run b (name :: args)])%list (stdin sys)).
Proof. reflexivity. Qed.

Lemma runCommand_git (b : bool) (userPath : string) (more : list string)
      (sys : Sys) :
  runCommand b (Fields (baseGit userPath) ++ more)%list sys
  = (Done tt,
     mkSys (acts sys ++ [Run b (Fields (baseGit userPath) ++ more)])%list
           (stdin sys)).
Proof. rewrite Fields_baseGit_head. apply runCommand_run. Qed.

Lemma addToVCS_run (userPath : string) (paths : list string) (sys : Sys) :
  addToVCS userPath paths sys
  = (Done tt,
     mkSys (acts sys
            ++ [Run true (Fields (baseGit userPath) ++ "add" :: paths)])%list
           (stdin sys)).
Proof.
  unfold addToVCS, runWithOutput.
  change (baseGit userPath ++ " add")
    with (baseGit userPath ++ String " " "add").
  rewrite Fields_baseGit_sub by (reflexivity || discriminate).
  rewrite <- app_assoc. apply runCommand_git.
Qed.

Lemma rmFromVCS_run (userPath : string) (paths : list string) (sys : Sys) :
  rmFromVCS userPath paths sys
  = (Done tt,
     mkSys (acts sys
            ++ [Run true (Fields (baseGit userPath) ++ "rm" :: paths)])%list
           (stdin sys)).
Proof.
  unfold rmFromVCS, runWithOutput.
  change (baseGit userPath ++ " rm")
    with (baseGit userPath ++ String " " "rm").
  rewrite Fields_baseGit_sub by (reflexivity || discriminate).
  rewrite <- app_assoc. apply runCommand_git.
Qed.

Lemma delegateCmdToVCS_run (userPath : string) (cmd : list string)
      (sys : Sys) :
  delegateCmdToVCS userPath cmd sys
  = (Done tt,
     mkSys (acts sys ++ [Run true (Fields (baseGit userPath) ++ cmd)])%list
           (stdin sys)).
Proof. apply runCommand_git. Qed.

Lemma status_run (userPath : string) (sys : Sys) :
  status userPath sys
  = (Done tt,
     mkSys (acts sys
            ++ [Run true (Fields (baseGit userPath) ++ ["status"])])%list
           (stdin sys)).
Proof. apply runCommand_git. Qed.

(** What [main] calls, by its arguments. *)
Lemma main_status (h : Host) (userPath prog : string) (sys : Sys) :
  main h userPath [prog] sys = status userPath sys.
Proof. reflexivity. Qed.

Lemma main_add (h : Host) (userPath prog a : string) (args : list string)
      (sys : Sys) :
  main h userPath (prog :: "add" :: a :: args) sys
  = addToVCS userPath (a :: args) sys.
Proof. reflexivity. Qed.

Lemma main_rm (h : Host) (userPath prog a : string) (args : list string)
      (sys : Sys) :
  main h userPath (prog :: "rm" :: a :: args) sys
  = rmFromVCS userPath (a :: args) sys.
Proof. reflexivity. Qed.

Lemma main_git (h : Host) (userPath prog a : string) (args : list string)
      (sys : Sys) :
  main h userPath (prog :: "git" :: a :: args) sys
  = delegateCmdToVCS userPath (a :: args) sys.
Proof. reflexivity. Qed.


Lemma main_init (h : Host) (userPath prog url : string) (sys : Sys) :
  main h userPath [prog; "init"; url] sys = initFromVCS h userPath url sys.
Proof. reflexivity. Qed.

Lemma main_new (h : Host) (userPath prog url : string) (sys : Sys) :
  main h userPath [prog; "new"; url] sys = initNew h userPath url sys.
Proof. reflexivity. Qed.

(** X2, the commands given to git: with an ASCII home directory free of
    white space, [sdf] alone runs git status, and [sdf add], [sdf rm] and
    [sdf git] with at least one operand run one git command whose arguments
    are the three of [gitArgv], the sub-command (none for [sdf git]) and the
    operands as they were given, each as one argument; nothing else
    happens. *)
Theorem vcs_commands (h : Host) (userPath prog : string) (sys : Sys) :
  isASCII userPath = true -> hasSpace userPath = false ->
  main h userPath [prog] sys
  = (Done tt,
     mkSys (acts sys ++ [Run true (gitArgv userPath ++ ["status"])])%list
           (stdin sys)) /\
  forall (a : string) (args : list string),
    main h userPath (prog :: "add" :: a :: args) sys
    = (Done tt,
       mkSys (acts sys
              ++ [Run true (gitArgv userPath ++ "add" :: a :: args)])%list
             (stdin sys)) /\
    main h userPath (prog :: "rm" :: a :: args) sys
    = (Done tt,
       mkSys (acts sys
              ++ [Run true (gitArgv userPath ++ "rm" :: a :: args)])%list
             (stdin sys)) /\
    main h userPath (prog :: "git" :: a :: args) sys
    = (Done tt,
       mkSys (acts sys ++ [Run true (gitArgv userPath ++ a :: args)])%list
             (stdin sys)).
Proof.
  intros _ Hclean. pose proof (Fields_baseGit_clean userPath Hclean) as Hf.
  split.
  - rewrite main_status, status_run, Hf. reflexivity.
  - intros a args. repeat split.
    + rewrite main_add, addToVCS_run, Hf. reflexivity.
    + rewrite main_rm, rmFromVCS_run, Hf. reflexivity.
    + rewrite main_git, delegateCmdToVCS_run, Hf. reflexivity.
Qed.

Lemma vcs_commands_witness :
  main (cleanHost (Sample.linux EmptyString 0)) "/home/alice"
       ["sdf"; "add"; ".config/my file"; ".vimrc"] (fresh EmptyString)
  = (Done tt,
     mkSys [Run true ["git"; "--git-dir=/home/alice/.config/sdf";
                      "--work-tree=/home/alice"; "add";
                      ".config/my file"; ".vimrc"]]
           EmptyString).
Proof.
  exact (proj1 (proj2 (vcs_commands (cleanHost (Sample.linux EmptyString 0))
                         "/home/alice" "sdf" (fresh EmptyString)
                         eq_refl eq_refl)
                 ".config/my file" [".vimrc"])).
Defined.

(** ** The dispatcher *)

Lemma said (msg : string) (sys : Sys) :
  say msg sys
  = (Done tt, mkSys (acts sys ++ [Ev (EvPrintln msg)])%list (stdin sys)).
Proof. reflexivity. Qed.



(** *** Every launch *)

Lemma Launch_closing_dec (l : Launch) : {l = Starts true} + {l <> Starts true}.
Proof. destruct l as [[|]|]; (left; reflexivity) || (right; discriminate). Qed.

(** With a child that closes its standard error, the general loop is the
    loop of [traceCmd]. *)
Lemma readLoopOn_closing (userPath : string) (fuel : nat) :
  forall w, readLoopOn fuel (Starts true) userPath w = readLoop fuel userPath w.
Proof.
  induction fuel as [|fuel IH]; intros w; [reflexivity|].
  cbn [readLoopOn readLoop]. unfold readLineOn, bind, readLine. cbv beta.
  destruct (ReadString (pipe w) newline) as [[line rest] eof].
  destruct eof; [reflexivity|].
  destruct (lineBody userPath line _) as [[[]| |] w'];
    [apply IH | reflexivity | reflexivity].
Qed.

Lemma traceCmdOn_closing (os : OS) (userPath : string) (inCmd : list string)
      (w : World) :
  traceCmdOn os (Starts true) userPath inCmd w = traceCmd os userPath inCmd w.
Proof.
  unfold traceCmdOn, traceCmd. unfold bind.
  destruct (LookPath os "strace" w) as [[found| |] w1]; try reflexivity.
  destruct (negb found); [reflexivity|].
  destruct (lift (index inCmd 0) w1) as [[prog| |] w2]; try reflexivity.
  destruct (LookPath os prog w2) as [[found'| |] w3]; try reflexivity.
  destruct (negb found'); [reflexivity|].
  destruct (StderrPipe os w3) as [[[]| |] w4]; try reflexivity.
  cbn [StartOn].
  destruct (Start os _ w4) as [[[]| |] w5]; try reflexivity.
  unfold drainOn, drain. rewrite readLoopOn_closing. reflexivity.
Qed.

(** An empty read prints nothing. *)
Lemma lineBody_empty (userPath : string) (w : World) :
  lineBody userPath EmptyString w = (Done tt, w).
Proof.
  rewrite lineBody_run.
  replace (emitted userPath EmptyString) with (@nil string)
    by (rewrite emitted_parse; reflexivity).
  rewrite printed_nil. reflexivity.
Qed.

(** After a failed start the loop goes round for ever without effect. *)
Lemma readLoopOn_failed (userPath : string) (fuel : nat) (w : World) :
  readLoopOn fuel StartFails userPath w = (OutOfFuel, w).
Proof.
  induction fuel as [|fuel IH]; [reflexivity|].
  cbn [readLoopOn readLineOn]. unfold bind. rewrite lineBody_empty.
  exact IH.
Qed.

(** When the child is not one that closes its standard error, the loop does
    not end, whatever the fuel. *)
Lemma readLoopOn_never (launch : Launch) (userPath : string) :
  launch <> Starts true ->
  forall fuel w, fst (readLoopOn fuel launch userPath w) = OutOfFuel.
Proof.
  intros Hl fuel. destruct launch as [[|]|]; [congruence | |].
  - induction fuel as [|fuel IH]; intros w; [reflexivity|].
    cbn [readLoopOn readLineOn].
    destruct (ReadString (pipe w) newline) as [[line rest] eof].
    destruct eof; [reflexivity|].
    unfold bind. rewrite lineBody_run. apply IH.
  - intros w. rewrite readLoopOn_failed. reflexivity.
Qed.

Lemma traceCmdOn_no_strace (os : OS) (launch : Launch) (userPath : string)
      (inCmd : list string) :
  onPath os "strace" = false ->
  traceCmdOn os launch userPath inCmd initial
  = (Done tt,
     mkWorld [EvLookPath "strace"; EvPrintln msgNoStrace] EmptyString None).
Proof.
  intros Hs. unfold traceCmdOn, LookPath, Println, bind, log, ret.
  cbn [events pipe child initial app]. rewrite Hs. reflexivity.
Qed.

Lemma traceCmdOn_no_binary (os : OS) (launch : Launch)
      (userPath prog : string) (args : list string) :
  onPath os "strace" = true -> onPath os prog = false ->
  traceCmdOn os launch userPath (prog :: args) initial
  = (Done tt,
     mkWorld [EvLookPath "strace"; EvLookPath prog; EvPrintln msgNoBinary]
             EmptyString None).
Proof.
  intros Hs Hp.
  unfold traceCmdOn, LookPath, Println, bind, log, ret, lift, index.
  cbn [nth_error events pipe child initial app]. rewrite Hs. cbn [negb].
  cbn [events pipe child app]. rewrite Hp. reflexivity.
Qed.

Lemma traceCmdOn_no_pipe (os : OS) (launch : Launch)
      (userPath prog : string) (args : list string) :
  onPath os "strace" = true -> onPath os prog = true ->
  pipeFails os = true ->
  traceCmdOn os launch userPath (prog :: args) initial
  = (Panic "StderrPipe",
     mkWorld [EvLookPath "strace"; EvLookPath prog] EmptyString None).
Proof.
  intros Hs Hp Hpipe.
  unfold traceCmdOn, LookPath, StderrPipe, bind, log, ret, lift, index.
  cbn [nth_error events pipe child initial app]. rewrite Hs. cbn [negb].
  cbn [events pipe child app]. rewrite Hp, Hpipe. reflexivity.
Qed.

(** Both lookups succeed and the pipe is obtained: the run goes on to the
    start and the loop. *)
Lemma traceCmdOn_started (os : OS) (launch : Launch)
      (userPath prog : string) (args : list string) :
  onPath os "strace" = true -> onPath os prog = true ->
  pipeFails os = false ->
  traceCmdOn os launch userPath (prog :: args) initial
  = bind (StartOn os launch (straceArgv (prog :: args)))
      (fun _ => bind (drainOn launch userPath)
                  (fun _ => bind Wait (fun _ => ret tt)))
      (mkWorld [EvLookPath "strace"; EvLookPath prog] EmptyString None).
Proof.
  intros Hs Hp Hpipe.
  unfold traceCmdOn, LookPath, StderrPipe. unfold bind at 1 2 3 4 5 6.
  unfold log, ret, lift, index.
  cbn [nth_error events pipe child initial app]. rewrite Hs. cbn [negb].
  cbn [events pipe child app]. rewrite Hp. cbn [negb]. rewrite Hpipe.
  reflexivity.
Qed.

Lemma traceCmdOn_hangs (os : OS) (launch : Launch)
      (userPath prog : string) (args : list string) :
  onPath os "strace" = true -> onPath os prog = true ->
  pipeFails os = false -> launch <> Starts true ->
  fst (traceCmdOn os launch userPath (prog :: args) initial) = OutOfFuel.
Proof.
  intros Hs Hp Hpipe Hl. rewrite traceCmdOn_started by assumption.
  unfold bind at 1.
  destruct (StartOn os launch _ _) as [[[]| |] w] eqn:Hstart.
  - unfold bind at 1. unfold drainOn.
    pose proof (readLoopOn_never launch userPath Hl (S (len (pipe w))) w) as H.
    destruct (readLoopOn _ launch userPath w) as [o w']. simpl in H.
    subst o. reflexivity.
  - destruct launch; discriminate Hstart.
  - destruct launch; discriminate Hstart.
Qed.





(** ** Confirmation *)

Lemma lowerByte_space (c : ascii) : isSpace (lowerByte c) = isSpace c.
Proof.
  destruct c as [[] [] [] [] [] [] [] []]; reflexivity.
Qed.

Lemma ToLower_hasSpace (w : string) : hasSpace (ToLower w) = hasSpace w.
Proof.
  induction w as [|c w IH]; simpl; [reflexivity|].
  rewrite lowerByte_space, IH. reflexivity.
Qed.

Lemma hasSpace_free_newline (w : string) :
  hasSpace w = false -> free newline w.
Proof.
  unfold free. induction w as [|c w IH]; simpl; [reflexivity|].
  intros H. apply orb_false_iff in H as [Hc Hw]. rewrite (IH Hw).
  destruct (Ascii.eqb_spec c newline) as [->|]; [discriminate | reflexivity].
Qed.

Lemma trimLeft_pad (pad s : string) :
  allSpace pad = true -> trimLeft (pad ++ s) = trimLeft s.
Proof.
  induction pad as [|c pad IH]; simpl; [reflexivity|].
  intros H. apply andb_true_iff in H as [Hc Hp]. rewrite Hc. auto.
Qed.

Lemma trimRight_pad (pad : string) :
  allSpace pad = true -> forall s, trimRight (s ++ pad) = trimRight s.
Proof.
  intros Hpad.
  assert (H0 : trimRight pad = EmptyString).
  { induction pad as [|c pad IH]; simpl; [reflexivity|].
    simpl in Hpad. apply andb_true_iff in Hpad as [Hc Hp].
    rewrite (IH Hp), Hc. reflexivity. }
  induction s as [|c s IH]; simpl; [exact H0 | rewrite IH; reflexivity].
Qed.

Lemma trim_word (w : string) :
  hasSpace w = false -> trimLeft w = w /\ trimRight w = w.
Proof.
  intros H. split.
  - destruct w as [|c w]; [reflexivity|]. simpl in *.
    apply orb_false_iff in H as [-> _]. reflexivity.
  - induction w as [|c w IH]; [reflexivity|]. simpl in *.
    apply orb_false_iff in H as [Hc Hw]. rewrite (IH Hw), Hc.
    destruct w; reflexivity.
Qed.

Lemma TrimSpace_padded (pad1 w pad2 : string) :
  allSpace pad1 = true -> allSpace pad2 = true -> hasSpace w = false ->
  w <> EmptyString ->
  TrimSpace (pad1 ++ w ++ pad2) = w.
Proof.
  intros H1 H2 Hw Hne. unfold TrimSpace. rewrite trimLeft_pad by exact H1.
  destruct w as [|c w]; [congruence|].
  assert (Hl : trimLeft (String c w ++ pad2) = String c w ++ pad2).
  { simpl in *. apply orb_false_iff in Hw as [-> _]. reflexivity. }
  rewrite Hl, trimRight_pad by exact H2. apply trim_word, Hw.
Qed.

(** An answer is read whatever its case and the white space around it. *)
Lemma parseAnswer_padded (pad1 w pad2 : string) (b : bool) :
  allSpace pad1 = true -> allSpace pad2 = true ->
  (b = true /\ In (ToLower w) ["y"; "yes"]) \/
  (b = false /\ In (ToLower w) ["n"; "no"]) ->
  parseAnswer (pad1 ++ w ++ pad2 ++ byte newline) = Some b /\
  free newline w.
Proof.
  intros H1 H2 Hw.
  assert (Hs : hasSpace w = false /\ w <> EmptyString).
  { rewrite <- ToLower_hasSpace. simpl in Hw.
    destruct Hw as [[_ [E|[E|[]]]] | [_ [E|[E|[]]]]]; rewrite <- E;
      (split; [reflexivity | intros ->; discriminate]). }
  destruct Hs as [Hs Hne]. split; [|apply hasSpace_free_newline, Hs].
  unfold parseAnswer.
  rewrite (TrimSpace_padded pad1 w (pad2 ++ byte newline)); trivial.
  - simpl in Hw.
    destruct Hw as [[-> [E|[E|[]]]] | [-> [E|[E|[]]]]]; rewrite <- E;
      reflexivity.
  - clear -H2. induction pad2 as [|c p IH]; simpl in *; [reflexivity|].
    apply andb_true_iff in H2 as [-> Hp]. auto.
Qed.

Lemma ReadString_shorter (delim : ascii) (buf line rest : string) :
  ReadString buf delim = (line, rest, false) -> len rest < len buf.
Proof.
  revert line. induction buf as [|c buf IH]; simpl; intros line;
    [discriminate|].
  destruct (Ascii.eqb c delim).
  - intros [= _ <-]. unfold len. lia.
  - destruct (ReadString buf delim) as [[l r] e].
    intros [= _ <- ->]. specialize (IH l eq_refl). unfold len in *. simpl.
    lia.
Qed.

Lemma repeat_snoc (p : Act) (n : nat) (l : list Act) :
  ((l ++ [p]) ++ repeat p n)%list = (l ++ repeat p (S n))%list.
Proof. rewrite <- app_assoc. reflexivity. Qed.

(** Lines that are no answer cost one prompt each; the first answer
    decides. *)
Lemma askLoop_answer (s : string) (bad : list string) (good rest : string)
      (b : bool) :
  Forall (free newline) bad ->
  Forall (fun l => parseAnswer (l ++ byte newline) = None) bad ->
  free newline good -> parseAnswer (good ++ byte newline) = Some b ->
  forall fuel log,
    length bad < fuel ->
    askLoop fuel s
      (mkSys log (joinLines bad ++ good ++ byte newline ++ rest))
    = (Done b,
       mkSys (log ++ repeat (Printf (s ++ " [y/n]: ")) (S (length bad)))%list
             rest).
Proof.
  intros Hnl Hbad Hgood Hb.
  induction bad as [|l bad IH]; intros [|fuel] log Hfuel;
    try (simpl in Hfuel; lia).
  - cbn [askLoop joinLines append]. unfold bindIO, emit, readStdin.
    cbn [acts stdin]. unfold byte. cbn [append].
    rewrite ReadString_line by assumption. fold (byte newline).
    rewrite Hb. reflexivity.
  - inversion Hnl; subst. inversion Hbad; subst.
    cbn [askLoop joinLines]. unfold bindIO at 1 2, emit, readStdin.
    cbn [acts stdin]. unfold byte.
    rewrite !app_assoc_s. cbn [append].
    rewrite ReadString_line by assumption. fold (byte newline).
    match goal with H : parseAnswer _ = None |- _ => rewrite H end.
    etransitivity;
      [apply IH; [assumption | assumption | simpl in Hfuel; lia]|].
    rewrite repeat_snoc. reflexivity.
Qed.

Lemma askLoop_eof (s : string) (bad : list string) (tail : string) :
  Forall (free newline) bad ->
  Forall (fun l => parseAnswer (l ++ byte newline) = None) bad ->
  free newline tail ->
  forall fuel log,
    length bad < fuel ->
    askLoop fuel s (mkSys log (joinLines bad ++ tail))
    = (Panic "EOF",
       mkSys (log ++ repeat (Printf (s ++ " [y/n]: ")) (S (length bad)))%list
             EmptyString).
Proof.
  intros Hnl Hbad Htail.
  induction bad as [|l bad IH]; intros [|fuel] log Hfuel;
    try (simpl in Hfuel; lia).
  - cbn [askLoop joinLines append]. unfold bindIO, emit, readStdin.
    cbn [acts stdin]. rewrite ReadString_eof by assumption. reflexivity.
  - inversion Hnl; subst. inversion Hbad; subst.
    cbn [askLoop joinLines]. unfold bindIO at 1 2, emit, readStdin.
    cbn [acts stdin]. unfold byte.
    rewrite !app_assoc_s. cbn [append].
    rewrite ReadString_line by assumption. fold (byte newline).
    match goal with H : parseAnswer _ = None |- _ => rewrite H end.
    etransitivity;
      [apply IH; [assumption | assumption | simpl in Hfuel; lia]|].
    rewrite repeat_snoc. reflexivity.
Qed.

Lemma joinLines_len (ls : list string) (t : string) :
  length ls < S (len (joinLines ls ++ t)).
Proof.
  rewrite len_app. pose proof (joinLines_length ls). lia.
Qed.

(** X5, accepted answers: a line made of white space, a word that is y or
    yes in any mix of upper and lower case, and white space again, is a
    confirmation; with n or no it is a refusal.  [askForConfirmation]
    returns it after one prompt. *)
Theorem confirmation_spellings (s : string) (log : list Act)
        (pad1 w pad2 rest : string) (b : bool) :
  allSpace pad1 = true -> allSpace pad2 = true ->
  free newline pad1 -> free newline pad2 ->
  (b = true /\ In (ToLower w) ["y"; "yes"]) \/
  (b = false /\ In (ToLower w) ["n"; "no"]) ->
  let r := askForConfirmation s
             (mkSys log (pad1 ++ w ++ pad2 ++ byte newline ++ rest)) in
  fst r = Done b /\
  acts (snd r) = (log ++ [Printf (s ++ " [y/n]: ")])%list.
Proof.
  intros H1 H2 N1 N2 Hw r. subst r.
  destruct (parseAnswer_padded pad1 w pad2 b H1 H2 Hw) as [Hp Hnw].
  assert (Hline : free newline (pad1 ++ w ++ pad2)).
  { unfold free in *. rewrite !hasByte_app, N1, N2, Hnw. reflexivity. }
  unfold askForConfirmation.
  replace (pad1 ++ w ++ pad2 ++ byte newline ++ rest)
    with (joinLines [] ++ (pad1 ++ w ++ pad2) ++ byte newline ++ rest)
    by (simpl; rewrite !app_assoc_s; reflexivity).
  rewrite (askLoop_answer s [] (pad1 ++ w ++ pad2) rest b); trivial.
  - split; reflexivity.
  - rewrite !app_assoc_s. exact Hp.
  - simpl. lia.
Qed.

Lemma confirmation_spellings_witness :
  fst (askForConfirmation "Force remove previous configuration?"
         (fresh ("  " ++ "YeS" ++ " " ++ byte newline ++ "rest")))
  = Done true.
Proof.
  apply (confirmation_spellings "Force remove previous configuration?" []
           "  " "YeS" " " "rest" true); try reflexivity.
  left. split; [reflexivity | right; left; reflexivity].
Defined.

(** X6, unrecognised answers: every complete ASCII line of standard input
    that is no answer makes [askForConfirmation] prompt again; the first
    line that is an answer decides, after as many prompts as lines read. *)
Theorem confirmation_retries (s : string) (log : list Act)
        (bad : list string) (good rest : string) (b : bool) :
  Forall (free newline) bad ->
  Forall (fun l => isASCII l = true) bad ->
  Forall (fun l => parseAnswer (l ++ byte newline) = None) bad ->
  free newline good -> isASCII good = true ->
  parseAnswer (good ++ byte newline) = Some b ->
  let r := askForConfirmation s
             (mkSys log (joinLines bad ++ good ++ byte newline ++ rest)) in
  fst r = Done b /\
  acts (snd r)
  = (log ++ repeat (Printf (s ++ " [y/n]: ")) (S (length bad)))%list.
Proof.
  intros Hnl _ Hbad Hgood _ Hb r. subst r. unfold askForConfirmation.
  rewrite (askLoop_answer s bad good rest b); trivial.
  - split; reflexivity.
  - apply joinLines_len.
Qed.

Lemma confirmation_retries_witness :
  acts (snd (askForConfirmation "Sure?"
               (fresh (joinLines ["maybe"; "yes please"]
                       ++ "no" ++ byte newline ++ EmptyString))))
  = repeat (Printf "Sure? [y/n]: ") 3.
Proof.
  apply (confirmation_retries "Sure?" [] ["maybe"; "yes please"] "no"
           EmptyString false); try reflexivity; repeat constructor.
Defined.

(** X7, end of input: when standard input ends before a line that is an
    answer, [askForConfirmation] panics; the bytes after the last line feed
    are not taken as an answer, whatever they are. *)
Theorem confirmation_eof (s : string) (log : list Act) (bad : list string)
        (tail : string) :
  Forall (free newline) bad ->
  Forall (fun l => isASCII l = true) bad ->
  Forall (fun l => parseAnswer (l ++ byte newline) = None) bad ->
  free newline tail ->
  let r := askForConfirmation s (mkSys log (joinLines bad ++ tail)) in
  fst r = Panic "EOF" /\
  acts (snd r)
  = (log ++ repeat (Printf (s ++ " [y/n]: ")) (S (length bad)))%list.
Proof.
  intros Hnl _ Hbad Htail r. subst r. unfold askForConfirmation.
  rewrite (askLoop_eof s bad tail); trivial.
  - split; reflexivity.
  - apply joinLines_len.
Qed.

Lemma confirmation_eof_witness :
  fst (askForConfirmation "Sure?" (fresh (joinLines ["maybe"] ++ "y")))
  = Panic "EOF".
Proof.
  apply (confirmation_eof "Sure?" [] ["maybe"] "y");
    try reflexivity; repeat constructor.
Defined.

(** For any standard input, [askForConfirmation] prompts at least once and
    then returns an answer or panics. *)
Lemma askLoop_cases (s : string) (fuel : nat) :
  forall sys,
    len (stdin sys) < fuel ->
    exists o k rest,
      askLoop fuel s sys
      = (o, mkSys (acts sys ++ repeat (Printf (s ++ " [y/n]: ")) (S k))%list
                  rest) /\
      o <> OutOfFuel.
Proof.
  induction fuel as [|fuel IH]; intros [log input] Hlen; [lia|].
  cbn [askLoop]. unfold bindIO at 1 2, emit, readStdin. cbn [acts stdin] in *.
  destruct (ReadString input newline) as [[line rest] eof] eqn:Hread.
  destruct eof.
  - exists (Panic "EOF"), 0, rest. split; [reflexivity | discriminate].
  - destruct (parseAnswer line) as [b|].
    + exists (Done b), 0, rest. split; [reflexivity | discriminate].
    + pose proof (ReadString_shorter _ _ _ _ Hread) as Hshort.
      destruct (IH (mkSys (log ++ [Printf (s ++ " [y/n]: ")])%list rest))
        as (o & k & rest' & -> & Ho); [simpl; lia|].
      exists o, (S k), rest'. cbn [acts]. rewrite repeat_snoc.
      split; [reflexivity | exact Ho].
Qed.

Lemma askForConfirmation_cases (s : string) (sys : Sys) :
  exists o k rest,
    askForConfirmation s sys
    = (o, mkSys (acts sys ++ repeat (Printf (s ++ " [y/n]: ")) (S k))%list
                rest) /\
    o <> OutOfFuel.
Proof. apply askLoop_cases. lia. Qed.

(** ** Initialisation *)

Lemma clearPrevious_fresh (h : Host) (userPath : string) (sys : Sys) :
  notExist h (sdfPath userPath) = true ->
  clearPrevious h userPath sys = (Done true, sys).
Proof.
  intros Hne. unfold clearPrevious, bindIO, statNotExist, retIO.
  rewrite Hne. reflexivity.
Qed.

Lemma clearPrevious_answer (h : Host) (userPath : string) (log : list Act)
      (bad : list string) (good rest : string) (b : bool) :
  notExist h (sdfPath userPath) = false ->
  Forall (free newline) bad ->
  Forall (fun l => parseAnswer (l ++ byte newline) = None) bad ->
  free newline good -> parseAnswer (good ++ byte newline) = Some b ->
  let asked :=
    (log ++ Ev (EvPrintln msgInitialized)
         :: repeat (Printf (msgForce ++ " [y/n]: ")) (S (length bad)))%list in
  clearPrevious h userPath
    (mkSys log (joinLines bad ++ good ++ byte newline ++ rest))
  = if b then
      if fails h (RemoveAll (sdfPath userPath))
      then (Panic "check",
            mkSys (asked ++ [RemoveAll (sdfPath userPath)])%list rest)
      else (Done true,
            mkSys (asked ++ [RemoveAll (sdfPath userPath)])%list rest)
    else (Done false, mkSys asked rest).
Proof.
  intros Hne Hnl Hbad Hgood Hb asked. subst asked.
  unfold clearPrevious, statNotExist. unfold bindIO at 1, retIO at 1.
  rewrite Hne. cbn [negb]. unfold bindIO at 1. rewrite said.
  unfold bindIO at 1. unfold askForConfirmation. cbn [acts stdin].
  rewrite (askLoop_answer msgForce bad good rest b Hnl Hbad Hgood Hb)
    by apply joinLines_len.
  rewrite <- app_assoc. cbn [app].
  destruct b; cbn [negb]; [|reflexivity].
  unfold bindIO, check, emit, retIO, liftIO. cbn [acts stdin].
  destruct (fails h (RemoveAll (sdfPath userPath))); reflexivity.
Qed.

Lemma init_stopped (h : Host) (userPath url : string) (sys sys' : Sys) :
  clearPrevious h userPath sys = (Done false, sys') ->
  initNew h userPath url sys = (Done tt, sys') /\
  initFromVCS h userPath url sys = (Done tt, sys').
Proof.
  intros Hc. split.
  - unfold initNew. unfold bindIO at 1. rewrite Hc. reflexivity.
  - unfold initFromVCS. unfold bindIO at 1. rewrite Hc. reflexivity.
Qed.

Lemma init_panicked (h : Host) (userPath url msg : string)
      (sys sys' : Sys) :
  clearPrevious h userPath sys = (Panic msg, sys') ->
  initNew h userPath url sys = (Panic msg, sys') /\
  initFromVCS h userPath url sys = (Panic msg, sys').
Proof.
  intros Hc. split.
  - unfold initNew. unfold bindIO at 1. rewrite Hc. reflexivity.
  - unfold initFromVCS. unfold bindIO at 1. rewrite Hc. reflexivity.
Qed.

(** X8, a refusal changes nothing: when the store exists and the first
    answer on standard input is a refusal, [initNew] and [initFromVCS]
    return after the notice and the prompts; no file is removed or changed
    and no command is run. *)
Theorem refusal_changes_nothing (h : Host) (userPath url : string)
        (log : list Act) (bad : list string) (good rest : string) :
  notExist h (sdfPath userPath) = false ->
  Forall (free newline) bad ->
  Forall (fun l => isASCII l = true) bad ->
  Forall (fun l => parseAnswer (l ++ byte newline) = None) bad ->
  free newline good -> isASCII good = true ->
  parseAnswer (good ++ byte newline) = Some false ->
  let sys := mkSys log (joinLines bad ++ good ++ byte newline ++ rest) in
  let asked :=
    (log ++ Ev (EvPrintln msgInitialized)
         :: repeat (Printf (msgForce ++ " [y/n]: ")) (S (length bad)))%list in
  (fst (initNew h userPath url sys) = Done tt /\
   acts (snd (initNew h userPath url sys)) = asked) /\
  (fst (initFromVCS h userPath url sys) = Done tt /\
   acts (snd (initFromVCS h userPath url sys)) = asked).
Proof.
  intros Hne Hnl _ Hbad Hgood _ Hb sys asked. subst sys asked.
  pose proof (clearPrevious_answer h userPath log bad good rest false
                Hne Hnl Hbad Hgood Hb) as Hc. cbv zeta in Hc.
  destruct (init_stopped h userPath url _ _ Hc) as [-> ->].
  repeat split.
Qed.

Lemma refusal_changes_nothing_witness :
  acts (snd (main (usedHost (Sample.linux EmptyString 0)) "/home/alice"
               ["sdf"; "init"; "https://example.org/dot.git"]
               (fresh (joinLines ["what?"] ++ "N" ++ byte newline
                       ++ EmptyString))))
  = [Ev (EvPrintln msgInitialized);
     Printf (msgForce ++ " [y/n]: "); Printf (msgForce ++ " [y/n]: ")].
Proof.
  apply (refusal_changes_nothing (usedHost (Sample.linux EmptyString 0))
           "/home/alice" "https://example.org/dot.git" [] ["what?"] "N"
           EmptyString); try reflexivity; repeat constructor.
Defined.

Lemma bindIO_done {A B : Type} (m : IO A) (k : A -> IO B) (sys sys' : Sys)
      (a : A) :
  m sys = (Done a, sys') -> bindIO m k sys = k a sys'.
Proof. intros H. unfold bindIO. rewrite H. reflexivity. Qed.

(** A call under [check] is the next step of a plan. *)
Lemma check_step (h : Host) (call : Act) (k : unit -> IO unit)
      (plan log : list Act) (input : string) :
  failing h call = fails h call ->
  k tt (mkSys (log ++ [call])%list input)
  = ran (perform h plan (log ++ [call])%list) input ->
  bindIO (check h call) k (mkSys log input)
  = ran (perform h (call :: plan) log) input.
Proof.
  intros Hf Hk. unfold bindIO at 1, check, bindIO, emit, liftIO, retIO.
  cbn [acts stdin perform]. rewrite Hf.
  destruct (fails h call); [reflexivity | exact Hk].
Qed.

(** So is an action that cannot fail. *)
Lemma sure_step {A : Type} (h : Host) (m : IO A) (a : Act) (x : A)
      (k : A -> IO unit) (plan log : list Act) (input : string) :
  failing h a = false ->
  m (mkSys log input) = (Done x, mkSys (log ++ [a])%list input) ->
  k x (mkSys (log ++ [a])%list input)
  = ran (perform h plan (log ++ [a])%list) input ->
  bindIO m k (mkSys log input) = ran (perform h (a :: plan) log) input.
Proof.
  intros Hf Hm Hk. rewrite (bindIO_done _ _ _ _ _ Hm).
  cbn [perform]. rewrite Hf. exact Hk.
Qed.

Lemma initNew_perform (h : Host) (userPath url : string) (sys : Sys)
      (log : list Act) (input : string) :
  clearPrevious h userPath sys = (Done true, mkSys log input) ->
  initNew h userPath url sys
  = ran (perform h (planNew (Fields (baseGit userPath)) userPath url) log)
        input.
Proof.
  intros Hc. unfold initNew. rewrite (bindIO_done _ _ _ _ _ Hc).
  cbn [negb]. cbv zeta. unfold planNew.
  eapply sure_step; [reflexivity | apply runCommand_run |].
  eapply sure_step; [reflexivity | apply runCommand_git |].
  eapply sure_step; [reflexivity | apply runCommand_git |].
  apply check_step; [reflexivity|].
  reflexivity.
Qed.

Lemma initFromVCS_perform (h : Host) (userPath url : string) (sys : Sys)
      (log : list Act) (input : string) :
  clearPrevious h userPath sys = (Done true, mkSys log input) ->
  initFromVCS h userPath url sys
  = ran (perform h
           (planFromVCS (Fields (baseGit userPath))
              (negb (notExist h (userPath ++ "/.config/sdf-tmp/.gitmodules")))
              userPath url) log)
        input.
Proof.
  intros Hc. unfold initFromVCS. rewrite (bindIO_done _ _ _ _ _ Hc).
  cbn [negb]. cbv zeta. unfold planFromVCS. cbn [app].
  apply check_step; [reflexivity|].
  eapply sure_step; [reflexivity | apply runCommand_run |].
  rewrite !(app_assoc_s userPath "/.config/sdf-tmp" "/.gitmodules").
  cbn [append].
  erewrite bindIO_done by (unfold statNotExist, retIO; reflexivity).
  destruct (notExist h (userPath ++ "/.config/sdf-tmp/.gitmodules"));
    cbn [negb app].
  - erewrite bindIO_done by (unfold retIO; reflexivity).
    apply check_step; [reflexivity|].
    eapply sure_step; [reflexivity | apply runCommand_git |].
    apply check_step; [reflexivity|]. reflexivity.
  - apply check_step; [reflexivity|].
    apply check_step; [reflexivity|].
    eapply sure_step; [reflexivity | apply runCommand_git |].
    apply check_step; [reflexivity|]. reflexivity.
Qed.

(** X9, initialisation on a host without store: with an ASCII home
    directory free of white space and no store yet, [initNew] and
    [initFromVCS] read nothing from standard input and perform their plan
    in order, up to the first file-system call that fails (which panics):
    the git commands start with the three arguments of [gitArgv], the URL
    is one argument as given, and the store is made private (0700) before
    the closing message. *)
Theorem init_plan (h : Host) (userPath url : string) (log : list Act)
        (input : string) :
  isASCII userPath = true -> hasSpace userPath = false ->
  notExist h (sdfPath userPath) = true ->
  initNew h userPath url (mkSys log input)
  = ran (perform h (planNew (gitArgv userPath) userPath url) log) input /\
  initFromVCS h userPath url (mkSys log input)
  = ran (perform h
           (planFromVCS (gitArgv userPath)
              (negb (notExist h (userPath ++ "/.config/sdf-tmp/.gitmodules")))
              userPath url) log)
        input.
Proof.
  intros _ Hclean Hfresh.
  pose proof (clearPrevious_fresh h userPath (mkSys log input) Hfresh) as Hc.
  rewrite <- (Fields_baseGit_clean userPath Hclean).
  split; [apply initNew_perform | apply initFromVCS_perform]; exact Hc.
Qed.

Lemma init_plan_witness :
  main (cleanHost (Sample.linux EmptyString 0)) "/home/alice"
       ["sdf"; "new"; "git@example.org:alice/dot files.git"]
       (fresh EmptyString)
  = (Done tt,
     mkSys [Run false ["git"; "init"; "--bare"; "/home/alice/.config/sdf"];
            Run false ["git"; "--git-dir=/home/alice/.config/sdf";
                       "--work-tree=/home/alice"; "remote"; "add"; "master";
                       "git@example.org:alice/dot files.git"];
            Run false ["git"; "--git-dir=/home/alice/.config/sdf";
                       "--work-tree=/home/alice"; "config";
                       "status.showUntrackedFiles"; "no"];
            Chmod "/home/alice/.config/sdf" 448;
            Ev (EvPrintln msgNew)]
           EmptyString).
Proof.
  exact (proj1 (init_plan (cleanHost (Sample.linux EmptyString 0))
                  "/home/alice" "git@example.org:alice/dot files.git" []
                  EmptyString eq_refl eq_refl eq_refl)).
Defined.

(** X10, confirmed overwrite: when the store exists and the first answer on
    standard input is a confirmation, [initNew] and [initFromVCS] print the
    notice, prompt once per line read, remove the store, and then perform
    the plan of a first initialisation; if the removal fails they panic
    there and run no command. *)
Theorem overwrite_plan (h : Host) (userPath url : string) (log : list Act)
        (bad : list string) (good rest : string) :
  isASCII userPath = true -> hasSpace userPath = false ->
  notExist h (sdfPath userPath) = false ->
  Forall (free newline) bad ->
  Forall (fun l => isASCII l = true) bad ->
  Forall (fun l => parseAnswer (l ++ byte newline) = None) bad ->
  free newline good -> isASCII good = true ->
  parseAnswer (good ++ byte newline) = Some true ->
  let sys := mkSys log (joinLines bad ++ good ++ byte newline ++ rest) in
  let asked :=
    (log ++ Ev (EvPrintln msgInitialized)
         :: repeat (Printf (msgForce ++ " [y/n]: ")) (S (length bad)))%list in
  let new :=
    perform h (RemoveAll (sdfPath userPath)
                 :: planNew (gitArgv userPath) userPath url) asked in
  let restored :=
    perform h
      (RemoveAll (sdfPath userPath)
         :: planFromVCS (gitArgv userPath)
              (negb (notExist h (userPath ++ "/.config/sdf-tmp/.gitmodules")))
              userPath url) asked in
  (fst (initNew h userPath url sys) = fst new /\
   acts (snd (initNew h userPath url sys)) = snd new) /\
  (fst (initFromVCS h userPath url sys) = fst restored /\
   acts (snd (initFromVCS h userPath url sys)) = snd restored).
Proof.
  intros _ Hclean Hne Hnl _ Hbad Hgood _ Hb sys asked new restored.
  subst sys new restored.
  pose proof (clearPrevious_answer h userPath log bad good rest true
                Hne Hnl Hbad Hgood Hb) as Hc. cbv zeta in Hc. fold asked in Hc.
  cbn [perform failing].
  rewrite <- (Fields_baseGit_clean userPath Hclean).
  destruct (fails h (RemoveAll (sdfPath userPath))).
  - destruct (init_panicked h userPath url _ _ _ Hc) as [-> ->].
    repeat split.
  - rewrite (initNew_perform h userPath url _ _ _ Hc).
    rewrite (initFromVCS_perform h userPath url _ _ _ Hc).
    repeat split.
Qed.

Lemma overwrite_plan_witness :
  acts (snd (initNew (usedHost (Sample.linux EmptyString 0)) "/home/alice"
               "url" (fresh (joinLines [] ++ "y" ++ byte newline
                             ++ EmptyString))))
  = [Ev (EvPrintln msgInitialized); Printf (msgForce ++ " [y/n]: ");
     RemoveAll "/home/alice/.config/sdf";
     Run false ["git"; "init"; "--bare"; "/home/alice/.config/sdf"];
     Run false ["git"; "--git-dir=/home/alice/.config/sdf";
                "--work-tree=/home/alice"; "remote"; "add"; "master"; "url"];
     Run false ["git"; "--git-dir=/home/alice/.config/sdf";
                "--work-tree=/home/alice"; "config";
                "status.showUntrackedFiles"; "no"];
     Chmod "/home/alice/.config/sdf" 448;
     Ev (EvPrintln msgNew)].
Proof.
  apply (overwrite_plan (usedHost (Sample.linux EmptyString 0)) "/home/alice"
           "url" [] [] "y" EmptyString); try reflexivity; constructor.
Defined.

Lemma check_run (h : Host) (call : Act) (sys : Sys) :
  check h call sys
  = (if fails h call then Panic "check" else Done tt,
     mkSys (acts sys ++ [call])%list (stdin sys)).
Proof.
  unfold check, bindIO, emit, liftIO, retIO.
  destruct (fails h call); reflexivity.
Qed.

(** Whatever the host and the input, the opening prints at most the notice
    and prompts, and removes at most the store. *)
Lemma clearPrevious_cases (h : Host) (userPath : string) (sys : Sys) :
  exists o pre rest,
    clearPrevious h userPath sys = (o, mkSys (acts sys ++ pre)%list rest) /\
    forall a, In a pre ->
      a = Ev (EvPrintln msgInitialized) \/
      a = Printf (msgForce ++ " [y/n]: ") \/
      a = RemoveAll (sdfPath userPath).
Proof.
  destruct (notExist h (sdfPath userPath)) eqn:Hne.
  - rewrite clearPrevious_fresh by exact Hne.
    exists (Done true), [], (stdin sys). destruct sys; simpl.
    rewrite app_nil_r. split; [reflexivity | intros a []].
  - unfold clearPrevious, statNotExist. unfold bindIO at 1, retIO at 1.
    rewrite Hne. cbn [negb]. unfold bindIO at 1. rewrite said.
    unfold bindIO at 1.
    destruct (askForConfirmation_cases msgForce
                (mkSys (acts sys ++ [Ev (EvPrintln msgInitialized)])%list
                       (stdin sys)))
      as (o & k & rest & -> & _).
    cbn [acts]. rewrite <- app_assoc. cbn [app].
    assert (Hpre : forall tl a,
               (forall x, In x tl -> x = RemoveAll (sdfPath userPath)) ->
               In a ((Ev (EvPrintln msgInitialized)
                        :: repeat (Printf (msgForce ++ " [y/n]: ")) (S k))
                       ++ tl)%list ->
               a = Ev (EvPrintln msgInitialized) \/
               a = Printf (msgForce ++ " [y/n]: ") \/
               a = RemoveAll (sdfPath userPath)).
    { intros tl a Htl Ha. apply in_app_or in Ha as [[<-|Ha]|Ha]; auto.
      apply repeat_spec in Ha. auto. }
    destruct o as [[|]| |].
    + cbn [negb]. unfold bindIO. rewrite check_run. cbn [acts stdin].
      destruct (fails h (RemoveAll (sdfPath userPath)));
        do 3 eexists; (split; [rewrite <- app_assoc; reflexivity|]);
        intros a; apply Hpre; intros x [<-|[]]; reflexivity.
    + do 3 eexists. split; [reflexivity|].
      intros a Ha. apply (Hpre [] a); [intros x []|].
      rewrite app_nil_r. exact Ha.
    + do 3 eexists. split; [reflexivity|].
      intros a Ha. apply (Hpre [] a); [intros x []|].
      rewrite app_nil_r. exact Ha.
    + do 3 eexists. split; [reflexivity|].
      intros a Ha. apply (Hpre [] a); [intros x []|].
      rewrite app_nil_r. exact Ha.
Qed.

Lemma perform_log (h : Host) (plan : list Act) :
  forall log a,
    In a (snd (perform h plan log)) -> In a log \/ In a plan.
Proof.
  induction plan as [|c plan IH]; intros log a; simpl; [auto|].
  destruct (failing h c); simpl.
  - intros H. apply in_app_or in H as [H|[<-|[]]]; auto.
  - intros H. apply IH in H as [H|H]; auto.
    apply in_app_or in H as [H|[<-|[]]]; auto.
Qed.

(** An action of the plan that was made: all the actions before it were
    made and did not fail, and it is the last one when it is the last of the
    plan and did not fail. *)
Lemma perform_reached (h : Host) (pre : list Act) (a : Act)
      (post : list Act) :
  ~ In a pre ->
  forall log,
    ~ In a log ->
    In a (snd (perform h (pre ++ a :: post) log)) ->
    Forall (fun c => failing h c = false) pre /\
    forall c, In c pre -> In c (snd (perform h (pre ++ a :: post) log)).
Proof.
  induction pre as [|c pre IH]; intros Hpre log Hlog Hin.
  - split; [constructor | intros c []].
  - cbn [app perform] in *. destruct (failing h c) eqn:Hc.
    + simpl in Hin. apply in_app_or in Hin as [Hin|[<-|[]]];
        [contradiction | exfalso; apply Hpre; left; reflexivity].
    + assert (Hlog' : ~ In a (log ++ [c])).
      { intros H. apply in_app_or in H as [H|[<-|[]]];
          [contradiction | apply Hpre; left; reflexivity]. }
      destruct (IH (fun H => Hpre (or_intror H)) _ Hlog' Hin) as [Hf Hall].
      split; [constructor; assumption|].
      intros x [<-|Hx]; [|apply Hall, Hx].
      clear -Hc. generalize (pre ++ a :: post)%list as plan.
      assert (Hx : In c (log ++ [c])) by (apply in_or_app; right; left; reflexivity).
      revert Hx. generalize (log ++ [c])%list as l. intros l Hx plan.
      revert l Hx. induction plan as [|d plan IHp]; intros l Hx; simpl; [exact Hx|].
      destruct (failing h d); simpl; [apply in_or_app; left; exact Hx|].
      apply IHp. apply in_or_app. left. exact Hx.
Qed.

Lemma Outcome_true_dec (o : Outcome bool) : {o = Done true} + {o <> Done true}.
Proof. destruct o as [[|]| |]; (left; reflexivity) || (right; discriminate). Qed.

Lemma perform_done (h : Host) (plan : list Act) :
  Forall (fun c => failing h c = false) plan ->
  forall log, perform h plan log = (Done tt, (log ++ plan)%list).
Proof.
  induction 1 as [|c plan Hc _ IH]; intros log; simpl.
  - rewrite app_nil_r. reflexivity.
  - rewrite Hc, IH, <- app_assoc. reflexivity.
Qed.

Lemma init_aborted (h : Host) (userPath url : string) (sys sys' : Sys)
      (o : Outcome bool) :
  clearPrevious h userPath sys = (o, sys') -> o <> Done true ->
  snd (initNew h userPath url sys) = sys' /\
  snd (initFromVCS h userPath url sys) = sys'.
Proof.
  intros Hc Ho. split.
  - unfold initNew. unfold bindIO at 1. rewrite Hc.
    destruct o as [[|]| |]; try reflexivity; congruence.
  - unfold initFromVCS. unfold bindIO at 1. rewrite Hc.
    destruct o as [[|]| |]; try reflexivity; congruence.
Qed.

(** When the closing message [msg] of a plan was printed, the plan was
    performed to its end without failure. *)
Lemma closing_message (h : Host) (steps : list Act) (msg : string)
      (log : list Act) (c : Act) :
  ~ In (Ev (EvPrintln msg)) steps -> ~ In (Ev (EvPrintln msg)) log ->
  In c steps ->
  In (Ev (EvPrintln msg))
     (snd (perform h (steps ++ [Ev (EvPrintln msg)]) log)) ->
  fst (perform h (steps ++ [Ev (EvPrintln msg)]) log) = Done tt /\
  failing h c = false /\
  In c (snd (perform h (steps ++ [Ev (EvPrintln msg)]) log)).
Proof.
  intros Hsteps Hlog Hc Hin.
  destruct (perform_reached h steps _ [] Hsteps log Hlog Hin) as [Hf Hall].
  repeat split.
  - rewrite perform_done; [reflexivity|].
    apply Forall_app. split; [exact Hf | repeat constructor].
  - rewrite Forall_forall in Hf. apply Hf, Hc.
  - apply Hall, Hc.
Qed.

(** X11, the store is private when the command succeeds: whatever the host
    and the standard input, [initNew] and [initFromVCS] print their closing
    message only when they return normally after a chmod 0700 of the store
    that did not fail. *)
Theorem store_private_on_success (h : Host) (userPath url input : string) :
  (In (Ev (EvPrintln msgNew))
      (acts (snd (initNew h userPath url (fresh input)))) ->
   fst (initNew h userPath url (fresh input)) = Done tt /\
   fails h (Chmod (sdfPath userPath) 448) = false /\
   In (Chmod (sdfPath userPath) 448)
      (acts (snd (initNew h userPath url (fresh input))))) /\
  (In (Ev (EvPrintln msgRestored))
      (acts (snd (initFromVCS h userPath url (fresh input)))) ->
   fst (initFromVCS h userPath url (fresh input)) = Done tt /\
   fails h (Chmod (sdfPath userPath) 448) = false /\
   In (Chmod (sdfPath userPath) 448)
      (acts (snd (initFromVCS h userPath url (fresh input))))).
Proof.
  destruct (clearPrevious_cases h userPath (fresh input))
    as (o & pre & rest & Hc & Hpre).
  cbn [fresh acts app] in Hc.
  assert (Hlog : forall msg, msg = msgNew \/ msg = msgRestored ->
                 ~ In (Ev (EvPrintln msg)) pre).
  { intros msg Hmsg Hin. apply Hpre in Hin.
    destruct Hmsg as [-> | ->], Hin as [H|[H|H]]; discriminate H. }
  destruct (Outcome_true_dec o) as [-> | Ho].
  - rewrite (initNew_perform h userPath url _ _ _ Hc).
    rewrite (initFromVCS_perform h userPath url _ _ _ Hc).
    unfold ran. cbn [fst snd acts]. split.
    + replace (planNew (Fields (baseGit userPath)) userPath url)
        with (removelast (planNew (Fields (baseGit userPath)) userPath url)
              ++ [Ev (EvPrintln msgNew)])%list by reflexivity.
      apply (closing_message h _ msgNew pre (Chmod (sdfPath userPath) 448)).
      * simpl. intros [H|[H|[H|[H|[]]]]]; discriminate H.
      * apply Hlog. left. reflexivity.
      * simpl. tauto.
    + destruct (notExist h (userPath ++ "/.config/sdf-tmp/.gitmodules"));
        cbn [negb].
      * replace (planFromVCS (Fields (baseGit userPath)) false userPath url)
          with (removelast
                  (planFromVCS (Fields (baseGit userPath)) false userPath url)
                ++ [Ev (EvPrintln msgRestored)])%list by reflexivity.
        apply (closing_message h _ msgRestored pre
                 (Chmod (sdfPath userPath) 448)).
        -- simpl. intros [H|[H|[H|[H|[H|[]]]]]]; discriminate H.
        -- apply Hlog. right. reflexivity.
        -- simpl. tauto.
      * replace (planFromVCS (Fields (baseGit userPath)) true userPath url)
          with (removelast
                  (planFromVCS (Fields (baseGit userPath)) true userPath url)
                ++ [Ev (EvPrintln msgRestored)])%list by reflexivity.
        apply (closing_message h _ msgRestored pre
                 (Chmod (sdfPath userPath) 448)).
        -- simpl. intros [H|[H|[H|[H|[H|[H|[]]]]]]]; discriminate H.
        -- apply Hlog. right. reflexivity.
        -- simpl. tauto.
  - destruct (init_aborted h userPath url _ _ _ Hc Ho) as [-> ->].
    cbn [acts]. split; intros Hin; exfalso; revert Hin; apply Hlog; auto.
Qed.

(** ** More on the tracer *)

Lemma app_snoc_inv (c d : ascii) (s : string) :
  c <> d ->
  forall X line,
    line ++ String c EmptyString = X ++ String d s ->
    exists s', line = X ++ String d s'.
Proof.
  intros Hcd. induction X as [|x X IH]; intros line; simpl.
  - destruct line as [|y line]; simpl; intros [= E1 E2].
    + congruence.
    + subst. exists line. reflexivity.
  - destruct line as [|y line]; simpl; intros [= E1 E2].
    + destruct X; discriminate.
    + subst. destruct (IH _ E2) as [s' ->]. exists s'. reflexivity.
Qed.

Lemma emitted_length (userPath line : string) :
  length (emitted userPath line) <= 1.
Proof.
  rewrite emitted_parse.
  destruct (parseLine line) as [[path|]| |]; simpl; try lia.
  destruct (normalize path userPath) as [[rel|]| |]; simpl; lia.
Qed.

(** X12, candidates are clean single lines: every path the tracer prints is
    free of double quotes and of line feeds, so each candidate is exactly
    one line of output. *)
Theorem candidates_are_lines (userPath : string) (ls : list string)
        (tail s : string) :
  Forall (free newline) ls -> free newline tail ->
  In s (traceOutput userPath (joinLines ls ++ tail)) ->
  free dquote s /\ free newline s.
Proof.
  intros Hls Htail Hin.
  rewrite traceOutput_lines in Hin by assumption.
  unfold perLine in Hin. apply in_flat_map in Hin as (line & Hline & Hs).
  rewrite Forall_forall in Hls. specialize (Hls _ Hline).
  rewrite emitted_parse in Hs. unfold parseLine in Hs.
  destruct (Split (line ++ byte newline) dquote) as [|a [|path [|c l]]]
    eqn:Hsplit; try contradiction.
  cbn [length Nat.ltb Nat.leb index nth_error bindO] in Hs.
  destruct (normalize path userPath) as [[rel|]| |] eqn:Hnorm;
    try contradiction.
  destruct Hs as [->|[]].
  destruct (Split_cons_inv _ _ _ _ _ Hsplit) as (s1 & E1 & Ha & Hs1).
  destruct (Split_cons_inv _ _ _ _ _ Hs1) as (s2 & -> & Hpath & _).
  destruct (normalize_some_inv _ _ _ Hnorm) as [x ->].
  assert (Hnl : free newline (userPath ++ String x s)).
  { set (P := userPath ++ String x s) in *.
    replace (a ++ String dquote (P ++ String dquote s2))
      with ((a ++ String dquote P) ++ String dquote s2)
      in E1 by apply app_assoc_s.
    destruct (app_snoc_inv newline dquote s2 ltac:(discriminate) _ _ E1)
      as [s' E]. subst line. unfold free in *.
    rewrite !hasByte_app in Hls. simpl in Hls.
    apply orb_false_iff in Hls as [Hls _].
    apply orb_false_iff in Hls as [_ Hls]. exact Hls. }
  unfold free in *. rewrite hasByte_app in Hpath, Hnl. simpl in Hpath, Hnl.
  apply orb_false_iff in Hpath as [_ Hpath].
  apply orb_false_iff in Hpath as [_ Hpath].
  apply orb_false_iff in Hnl as [_ Hnl].
  apply orb_false_iff in Hnl as [_ Hnl]. split; assumption.
Qed.

Lemma candidates_are_lines_witness :
  free dquote ".bashrc" /\ free newline ".bashrc".
Proof.
  apply (candidates_are_lines "/home/alice"
           [Sample.openat "/home/alice/.bashrc"] EmptyString ".bashrc").
  - repeat constructor.
  - reflexivity.
  - vm_compute. left. reflexivity.
Defined.

(** X13, at most one candidate per line: the tracer prints no more paths
    than the stream has complete lines, however many quoted paths a line
    holds. *)
Theorem one_candidate_per_line (userPath : string) (ls : list string)
        (tail : string) :
  Forall (free newline) ls -> free newline tail ->
  length (traceOutput userPath (joinLines ls ++ tail)) <= length ls.
Proof.
  intros Hls Htail. rewrite traceOutput_lines by assumption.
  unfold perLine. clear Hls. induction ls as [|l ls IH]; simpl; [lia|].
  rewrite length_app.
  pose proof (emitted_length userPath (l ++ byte newline)). lia.
Qed.

Lemma one_candidate_per_line_witness :
  length (traceOutput "/home/alice"
            (joinLines ["rename(" ++ Sample.q ++ "/home/alice/a" ++ Sample.q
                        ++ ", " ++ Sample.q ++ "/home/alice/b" ++ Sample.q
                        ++ ") = 0"] ++ EmptyString))
  <= 1.
Proof.
  apply (one_candidate_per_line "/home/alice"
           ["rename(" ++ Sample.q ++ "/home/alice/a" ++ Sample.q
            ++ ", " ++ Sample.q ++ "/home/alice/b" ++ Sample.q ++ ") = 0"]
           EmptyString).
  - repeat constructor.
  - reflexivity.
Defined.

(** Settles a statement about a run whose outcome is known. *)
Ltac outcome_cases :=
  cbn [fst snd events spawned stdout];
  repeat match goal with
         | |- _ /\ _ => split
         | |- _ <-> _ => split
         end;
  intros; trivial;
  repeat match goal with
         | H : exists _, _ |- _ => destruct H
         | H : _ /\ _ |- _ => destruct H
         | H : _ \/ _ |- _ => destruct H
         end;
  subst; try discriminate; try congruence; eauto 12.

(** X14, the outcomes of [traceCmd]: it panics exactly when strace is on
    the search path and either no command was given or the command resolves
    and the pipe cannot be obtained, and then no process was started and
    nothing was printed.  It does not return, without panicking, exactly
    when both lookups succeed, the pipe is obtained, and either the start
    fails or the child keeps its standard error open: the loop then does not
    end, whatever the number of iterations.  In every other run it returns
    normally. *)
Theorem traceCmd_panics (os : OS) (launch : Launch) (userPath : string)
        (inCmd : list string) :
  let r := traceCmdOn os launch userPath inCmd initial in
  ((exists msg, fst r = Panic msg) <->
   onPath os "strace" = true /\
   (inCmd = [] \/
    exists prog args,
      inCmd = prog :: args /\ onPath os prog = true /\ pipeFails os = true))
  /\
  ((exists msg, fst r = Panic msg) ->
   spawned (events (snd r)) = [] /\ stdout (events (snd r)) = []) /\
  (fst r = OutOfFuel <->
   exists prog args,
     inCmd = prog :: args /\ onPath os "strace" = true /\
     onPath os prog = true /\ pipeFails os = false /\
     launch <> Starts true) /\
  (launch <> Starts true ->
   forall fuel w, fst (readLoopOn fuel launch userPath w) = OutOfFuel).
Proof.
  intros r. subst r.
  pose proof (readLoopOn_never launch userPath) as Hloop.
  destruct (onPath os "strace") eqn:Hs.
  2:{ rewrite traceCmdOn_no_strace by assumption. outcome_cases. }
  destruct inCmd as [|prog args].
  { replace (traceCmdOn os launch userPath [] initial)
      with (@Panic unit "index out of range",
            mkWorld [EvLookPath "strace"] EmptyString None).
    - outcome_cases.
    - unfold traceCmdOn, LookPath, bind, log, ret, lift, index.
      cbn [events pipe child initial app nth_error]. rewrite Hs.
      reflexivity. }
  destruct (onPath os prog) eqn:Hp.
  2:{ rewrite traceCmdOn_no_binary by assumption. outcome_cases. }
  destruct (pipeFails os) eqn:Hpipe.
  { rewrite traceCmdOn_no_pipe by assumption. outcome_cases. }
  destruct (Launch_closing_dec launch) as [->|Hl].
  - rewrite traceCmdOn_closing, traceCmd_launched by assumption.
    outcome_cases.
  - pose proof (traceCmdOn_hangs os launch userPath prog args
                  Hs Hp Hpipe Hl) as Hh.
    destruct (traceCmdOn os launch userPath (prog :: args) initial)
      as [o w]. cbn [fst] in Hh. subst o. outcome_cases.
Qed.
